(** * Paradox analyzer ([analyze_points]) of panopticum_show

    A shallow embedding of [sum_by_index] and [analyze_points]
    (src/project/app/test.py; main.py serves the analysis at
    [/find_paradox]) and the properties of the analyzer checked against it.

    Python floats are IEEE 754 binary64 values: they are modelled by Rocq's
    primitive [float], whose operations are specified by [SpecFloat] through
    the equations of [FloatAxioms].  The one operation IEEE 754 does not fix
    is the square [x ** 2], which CPython computes with C's [pow]: it is a
    parameter of the development ([Libm]).  Exceptions are modelled by an
    error monad, the list [deltas] the loop appends to by explicit state
    passing. *)

From Stdlib Require Import Floats ZArith List Bool Lia PeanoNat.
From Stdlib Require Strings.String Strings.Ascii.
Import ListNotations.

(* A decimal literal denotes the nearest binary64 value, as in Python. *)
Set Warnings "-inexact-float".

(** ** The fragment of the Python runtime the analyzer uses *)

Module Py.

(** The exception classes this code can raise. *)
Inductive exn : Type :=
| IndexError
| ZeroDivisionError
| OverflowError
| ValueError.

Inductive result (A : Type) : Type :=
| Ok (a : A)
| Raise (e : exn).

Arguments Ok {A} a.
Arguments Raise {A} e.

Definition bind {A B : Type} (m : result A) (k : A -> result B) : result B :=
  match m with
  | Ok a => k a
  | Raise e => Raise e
  end.

(** A Python number as this program meets it: the [int] literal [0] (and
    what [sum] starts from), or a [float]. *)
Inductive num : Type :=
| PyInt (z : Z)
| PyFloat (f : float).

(** [int] to [float] conversion of mixed arithmetic (round to nearest
    even; the only [int] this program builds is [0], converted exactly). *)
Definition to_float (x : num) : float :=
  match x with
  | PyInt z => SF2Prim (binary_normalize prec emax z 0 false)
  | PyFloat f => f
  end.

(** [l[i]] for a non-negative index. *)
Definition getitem {A : Type} (l : list A) (i : nat) : result A :=
  match nth_error l i with
  | Some a => Ok a
  | None => Raise IndexError
  end.

(** The C library of the platform, as far as this program reaches it:
    [libm_pow2 a] is the call [pow(a, 2.0)], its value and whether it leaves
    [errno] set to [ERANGE].  C fixes neither how [pow] rounds (glibc's is
    within one unit in the last place of the square, and on some arguments
    not the nearest float) nor whether an underflow is reported; for a base
    greater than zero it allows no other error than the range error. *)
Class Libm : Type := { libm_pow2 : float -> float * bool }.

(** [x ** 2] on a float, following CPython's [float_pow] with exponent
    [2.0]: NaN and infinities are answered directly, so are [0.0] and
    [+-1.0]; otherwise the result is C's [pow(|x|, 2.0)].  A range error is
    then taken to have happened when [pow] reports one and its value is not
    zero, or when it reports none and its value is infinite; it raises
    [OverflowError].  An underflow to [0.0] is not an error. *)
Definition float_pow2 {libm : Libm} (x : float) : result float :=
  if is_nan x then Ok x
  else if is_infinity x then Ok (abs x)
  else if (x =? 0)%float then Ok 0%float
  else
    let iv := abs x in
    if (iv =? 1)%float then Ok 1%float
    else
      let '(ix, erange) := libm_pow2 iv in
      let erange :=
        if erange then negb (ix =? 0)%float else is_infinity ix in
      if erange then Raise OverflowError else Ok ix.

(** [a / b] on floats: a zero divisor raises, anything else is IEEE
    division (overflow gives an infinity, inf/inf gives NaN). *)
Definition float_truediv (a b : float) : result float :=
  if (b =? 0)%float then Raise ZeroDivisionError else Ok (a / b)%float.

(** [x == 0]. NaN is not equal to anything; [-0.0 == 0] holds. *)
Definition num_eq0 (x : num) : bool :=
  match x with
  | PyInt z => (z =? 0)%Z
  | PyFloat f => (f =? 0)%float
  end.

(** [acc + x] as [sum] performs it, with a float item. *)
Definition num_add (acc : num) (x : float) : num :=
  PyFloat (to_float acc + x)%float.

(** [x ** 2] on a number. *)
Definition num_pow2 {libm : Libm} (x : num) : result num :=
  match x with
  | PyInt z => Ok (PyInt (z * z))
  | PyFloat f => bind (float_pow2 f) (fun r => Ok (PyFloat r))
  end.

(** [x > y], the comparison [max] uses. Two ints compare as integers, and
    an int meets a float through its value (this program's only int is
    [0]). Any comparison with NaN is false. *)
Definition num_gt (x y : num) : bool :=
  match x, y with
  | PyInt a, PyInt b => (b <? a)%Z
  | _, _ => (to_float y <? to_float x)%float
  end.

(** [max(l, key=key)]: the first element is the running maximum, a later
    element replaces it only when its key is strictly greater; an empty
    argument raises [ValueError]. *)
Definition max_by {A : Type} (key : A -> num) (l : list A) : result A :=
  match l with
  | [] => Raise ValueError
  | x :: xs =>
      Ok (fold_left (fun m y => if num_gt (key y) (key m) then y else m) xs x)
  end.

(** [range(a, b)] for [a >= 0]; empty when [b <= a]. *)
Definition range (a b : nat) : list nat := seq a (b - a).

End Py.

Import Py.

Declare Scope py_scope.
Delimit Scope py_scope with py.
Notation "x <- m ;; k" := (bind m (fun x => k))
  (at level 61, m at next level, right associativity) : py_scope.
Notation "' pat <- m ;; k" := (bind m (fun x => match x with pat => k end))
  (at level 61, pat pattern, m at next level, right associativity) : py_scope.
Open Scope py_scope.

(** ** Data model *)

(** A point is a [dict] with one entry, [{home_id: [volts, ampers, power,
    resistance, ...]}]; a dict is kept as its items in insertion order. *)
Definition point : Type := list (Z * list float).

Definition items (d : point) : list (Z * list float) := d.
Definition values (d : point) : list (list float) := map snd d.

(** The dict [{"delta": ..., "home_id": ...}] built for each candidate. *)
Record delta_rec : Type := mk_delta { delta : num; home_id : Z }.

(** ** The code *)

(** [sum(list(d.values())[0][index] for d in data)]: the generator is
    consumed from the left, starting from the int [0]; a failing item aborts
    the sum.  The items are added one by one in binary64 (CPython 3.12 and
    later compensate the rounding error of long float sums; on a window of
    at most two items both give the same float). *)
Fixpoint sum_from (acc : num) (data : list point) (index : nat) : result num :=
  match data with
  | [] => Ok acc
  | d :: rest =>
      row <- getitem (values d) 0 ;;
      x <- getitem row index ;;
      sum_from (num_add acc x) rest index
  end.

Definition sum_by_index (data : list point) (index : nat) : result num :=
  sum_from (PyInt 0) data index.

(** The body of the loop of [analyze_points] for index [i], up to the dict
    that is appended to [deltas]. *)
Definition candidate {libm : Libm} (points : list point) (i : nat)
  : result delta_rec :=
  current <- getitem points i ;;
  next_home <- getitem points (i + 1) ;;
  '(home_id, current_data) <- getitem (items current) 0 ;;
  next_data <- getitem (values next_home) 0 ;;
  current_volts <- getitem current_data 0 ;;
  current_resistance <- getitem current_data 3 ;;
  next_volts <- getitem next_data 0 ;;
  volt_diff <- float_pow2 (current_volts - next_volts)%float ;;
  volt_power <- (if negb (current_resistance =? 0)%float
                 then q <- float_truediv volt_diff current_resistance ;; Ok (PyFloat q)
                 else Ok (PyInt 0)) ;;
  let future_points := skipn (i + 2) points in
  future_ampers_sum <- sum_by_index future_points 1 ;;
  delta <- (if num_eq0 future_ampers_sum || (current_resistance =? 0)%float
            then Ok (PyInt 0)
            else
              sq <- num_pow2 future_ampers_sum ;;
              let amper_power := (to_float sq * current_resistance)%float in
              q <- float_truediv (to_float volt_power) amper_power ;;
              Ok (PyFloat q)) ;;
  Ok {| delta := delta; home_id := home_id |}.

(** *** State: what the call can reach and what it owns *)

Section Effects.

(** Module-level and external state (the globals [data] and [delt] of the
    script, the database, the logging sidecar); its shape is irrelevant. *)
Variable G : Type.

Context {libm : Libm}.

Record heap : Type := mk_heap {
  module_state : G;
  points_obj : list point;      (* the caller's list and the records in it *)
  deltas_obj : list delta_rec   (* the local list [deltas] *)
}.

Definition M (A : Type) : Type := heap -> heap * result A.

Definition ret {A : Type} (a : A) : M A := fun h => (h, Ok a).

Definition bindM {A B : Type} (m : M A) (k : A -> M B) : M B :=
  fun h =>
    match m h with
    | (h', Ok a) => k a h'
    | (h', Raise e) => (h', Raise e)
    end.

Definition lift {A : Type} (r : result A) : M A := fun h => (h, r).

Definition read_points : M (list point) := fun h => (h, Ok (points_obj h)).
Definition read_deltas : M (list delta_rec) := fun h => (h, Ok (deltas_obj h)).

(** [deltas = []] *)
Definition new_deltas : M unit :=
  fun h => (mk_heap (module_state h) (points_obj h) [], Ok tt).

(** [deltas.append(d)] *)
Definition append_delta (d : delta_rec) : M unit :=
  fun h => (mk_heap (module_state h) (points_obj h) (deltas_obj h ++ [d]), Ok tt).

(** One iteration of the loop. *)
Definition loop_body (i : nat) : M unit :=
  bindM read_points (fun points =>
  bindM (lift (candidate points i)) (fun d =>
  append_delta d)).

(** [for i in idx: body]; an exception leaves the loop. *)
Fixpoint for_each (idx : list nat) (body : nat -> M unit) : M unit :=
  match idx with
  | [] => ret tt
  | i :: rest => bindM (body i) (fun _ => for_each rest body)
  end.

Definition run_analyze_points : M delta_rec :=
  bindM new_deltas (fun _ =>
  bindM read_points (fun points =>
  bindM (for_each (range 1 (length points - 1)) loop_body) (fun _ =>
  bindM read_deltas (fun deltas =>
  lift (max_by delta deltas))))).

End Effects.

Arguments mk_heap {G} _ _ _.
Arguments module_state {G} _.
Arguments points_obj {G} _.
Arguments deltas_obj {G} _.
Arguments ret {G A} _ _.
Arguments bindM {G A B} _ _ _.
Arguments lift {G A} _ _.
Arguments read_points {G} _.
Arguments read_deltas {G} _.
Arguments new_deltas {G} _.
Arguments append_delta {G} _ _.
Arguments loop_body {G libm} _ _.
Arguments for_each {G} _ _ _.
Arguments run_analyze_points {G libm} _.

(** [analyze_points(points)]: the outcome of the call. *)
Definition analyze_points {libm : Libm} (points : list point)
  : result delta_rec :=
  snd (run_analyze_points (mk_heap tt points [])).

(** The dict literal [{k: row}]. *)
Definition entry (k : Z) (row : list float) : point := [(k, row)].
Arguments entry k%_Z row%_list.

Open Scope float_scope.

(** The sample series of the script. *)
Definition data : list point :=
  [ entry 1 [230.0; 84.49; 19002.0; 0.0]; entry 2 [228.732; 7.15; 1635.0; 0.015];
    entry 3 [227.572; 6.15; 1635.0; 0.015]; entry 4 [226.504; 3.65; 827.0; 0.015];
    entry 5 [225.491; 4.18; 941.0; 0.015]; entry 6 [224.54; 4.78; 1073.0; 0.015];
    entry 7 [223.661; 3.99; 893.0; 0.015]; entry 8 [222.842; 2.93; 653.0; 0.015];
    entry 9 [222.067; 4.72; 1049.0; 0.015]; entry 10 [221.362; 4.61; 1021.0; 0.015];
    entry 11 [220.727; 5.13; 1133.0; 0.015]; entry 12 [220.169; 4.89; 1077.0; 0.015];
    entry 13 [219.684; 4.22; 928.0; 0.015]; entry 14 [219.263; 4.77; 1045.0; 0.015];
    entry 15 [218.913; 3.84; 840.0; 0.015]; entry 16 [218.621; 4.55; 995.0; 0.015];
    entry 17 [218.397; 4.85; 1060.0; 0.015]; entry 18 [218.246; 3.26; 710.0; 0.015];
    entry 19 [218.144; 6.82; 1487.0; 0.015] ].


(** ** The formula of the specification (section 4.1)

    The quantities of the specification, read off a sequence of records at a
    candidate index [i], in binary64 arithmetic. *)

(** [x^2] in binary64, as [x ** 2] gives it: NaN, the infinities, zero and
    [+-1] have their exact square, any other [x] the value of the platform's
    [pow]. *)
Definition square {libm : Libm} (x : float) : float :=
  if is_nan x then x
  else if is_infinity x then abs x
  else if x =? 0 then 0
  else if abs x =? 1 then 1
  else fst (libm_pow2 (abs x)).

Definition ident (p : point) : Z :=
  match p with (k, _) :: _ => k | [] => 0%Z end.

Definition row (p : point) : list float :=
  match p with (_, r) :: _ => r | [] => [] end.

Definition volts (p : point) : float := nth 0 (row p) 0.
Definition ampers (p : point) : float := nth 1 (row p) 0.
Definition resistance (p : point) : float := nth 3 (row p) 0.

(** A point record: one identifier with its row of at least four floats. *)
Definition is_record (p : point) : bool :=
  match p with
  | [(_, r)] => (4 <=? length r)%nat
  | _ => false
  end.

Definition records (points : list point) : Prop :=
  forallb is_record points = true.

Definition point_at (points : list point) (i : nat) : point := nth i points [].

(** [V_i - V_{i+1}] *)
Definition volt_drop (points : list point) (i : nat) : float :=
  volts (point_at points i) - volts (point_at points (i + 1)).

(** [volt_power = (V_i - V_{i+1})^2 / R_i], [0] when [R_i == 0]. *)
Definition volt_power {libm : Libm} (points : list point) (i : nat) : num :=
  let R := resistance (point_at points i) in
  if R =? 0 then PyInt 0
  else PyFloat (square (volt_drop points i) / R).

(** The sum of the currents of [points[i+2:]]. *)
Definition future_ampers_sum (points : list point) (i : nat) : num :=
  fold_left (fun acc p => num_add acc (ampers p)) (skipn (i + 2) points) (PyInt 0).

(** [amper_power = future_ampers_sum^2 * R_i] *)
Definition amper_power {libm : Libm} (points : list point) (i : nat) : float :=
  let S := to_float (future_ampers_sum points i) in
  square S * resistance (point_at points i).

(** [future_ampers_sum == 0 OR R_i == 0] *)
Definition guarded (points : list point) (i : nat) : bool :=
  num_eq0 (future_ampers_sum points i) || (resistance (point_at points i) =? 0).

(** [delta = 0] when guarded, otherwise [volt_power / amper_power]. *)
Definition delta_formula {libm : Libm} (points : list point) (i : nat) : num :=
  if guarded points i then PyInt 0
  else PyFloat (to_float (volt_power points i) / amper_power points i).

(** The pair the specification expects for candidate [i]. *)
Definition expected {libm : Libm} (points : list point) (i : nat) : delta_rec :=
  {| delta := delta_formula points i; home_id := ident (point_at points i) |}.

(** [x ** 2] raises: the square of a finite [x] overflows ([pow] has a
    range error that is not an underflow to zero). *)
Definition pow2_raises {libm : Libm} (x : float) : bool :=
  match float_pow2 x with Ok _ => false | Raise _ => true end.

(** The arithmetic of candidate [i] raises nothing: neither square
    overflows, and the divisor [amper_power] of an unguarded candidate has
    not rounded to zero. *)
Definition arith_defined {libm : Libm} (points : list point) (i : nat) : bool :=
  negb (pow2_raises (volt_drop points i)) &&
  (guarded points i ||
   (negb (pow2_raises (to_float (future_ampers_sum points i))) &&
    negb (amper_power points i =? 0))).

(** The outcome of the loop body on records, case by case. *)
Definition candidate_outcome {libm : Libm} (points : list point) (i : nat)
  : result delta_rec :=
  if pow2_raises (volt_drop points i) then Raise OverflowError
  else if guarded points i then Ok (expected points i)
  else if pow2_raises (to_float (future_ampers_sum points i)) then Raise OverflowError
  else if amper_power points i =? 0 then Raise ZeroDivisionError
  else Ok (expected points i).

(** Candidates in loop order: the dicts appended until an exception, if any,
    leaves the loop. *)
Fixpoint collect {libm : Libm} (points : list point) (idx : list nat)
  : list delta_rec * option exn :=
  match idx with
  | [] => ([], None)
  | i :: rest =>
      match candidate points i with
      | Ok d => let (ds, e) := collect points rest in (d :: ds, e)
      | Raise e => ([], Some e)
      end
  end.

(** The scan of [max]: the running maximum after the elements [xs]. *)
Definition scan (xs : list delta_rec) (m : delta_rec) : delta_rec :=
  fold_left (fun m y => if num_gt (delta y) (delta m) then y else m) xs m.

(** [x <= y] on numbers, as Python compares them. *)
Definition num_le (x y : num) : bool :=
  match x, y with
  | PyInt a, PyInt b => (a <=? b)%Z
  | _, _ => to_float x <=? to_float y
  end.

(** The values a delta takes: the int [0] or a float. *)
Definition is_delta (x : num) : Prop :=
  x = PyInt 0 \/ exists f, x = PyFloat f.

(** The ratio as one quotient, [(V_i - V_{i+1})^2 / (R_i^2 * S^2)]. *)
Definition delta_closed_form {libm : Libm} (points : list point) (i : nat)
  : float :=
  let R := resistance (point_at points i) in
  let S := to_float (future_ampers_sum points i) in
  square (volt_drop points i) / (square R * square S).

(** What every [pow] gives for a base greater than zero: a value that is
    NaN or of positive sign (a square is never negative, and an underflow
    gives [+0.0]). *)
Definition pow2_positive {libm : Libm} : Prop :=
  forall a, (0 <? a) = true ->
    match Prim2SF (fst (libm_pow2 a)) with
    | S754_nan => True
    | S754_zero s | S754_infinity s | S754_finite s _ _ => s = false
    end.

(** ** Sample inputs *)

(** A voltage whose drop to the next point cannot be squared. *)
Definition series_overflow : list point :=
  [ entry 1 [230.0; 84.49; 19002.0; 0.0]; entry 2 [1e200; 7.15; 1635.0; 0.015];
    entry 3 [227.572; 6.15; 1635.0; 0.015] ].

(** A downstream current so small that its square rounds to zero. *)
Definition series_tiny_current : list point :=
  [ entry 1 [230.0; 84.49; 19002.0; 0.0]; entry 2 [228.732; 7.15; 1635.0; 0.015];
    entry 3 [227.572; 6.15; 1635.0; 0.015]; entry 4 [226.504; 1e-200; 827.0; 0.015] ].

(** A candidate of resistance zero behind a huge voltage drop. *)
Definition series_zero_resistance : list point :=
  [ entry 1 [230.0; 84.49; 19002.0; 0.0]; entry 2 [1e200; 7.15; 1635.0; 0.0];
    entry 3 [227.572; 6.15; 1635.0; 0.015]; entry 4 [226.504; 3.65; 827.0; 0.015] ].

(** Three records with opposite huge voltages. *)
Definition series_three_huge : list point :=
  [ entry 1 [0.0; 1.0; 1.0; 1.0]; entry 2 [-1e200; 1.0; 1.0; 1.0];
    entry 3 [1e200; 1.0; 1.0; 1.0] ].

(** Finite measurements whose two powers both overflow to infinity. *)
Definition series_both_infinite : list point :=
  [ entry 1 [0.0; 1.0; 1.0; 1.0]; entry 2 [1e308; 1.0; 1.0; 10.0];
    entry 3 [-1e308; 1.0; 1.0; 10.0]; entry 4 [-1e308; 1e154; 1.0; 10.0] ].

(** Three records, the middle one far above its successor. *)
Definition series_last_huge : list point :=
  [ entry 7 [223.661; 3.99; 893.0; 0.015]; entry 8 [3e180; 2.93; 653.0; 0.015];
    entry 9 [222.067; 4.72; 1049.0; 0.015] ].

(** Unit voltage drop and unit downstream current over the resistance of
    the sample series. *)
Definition series_unit : list point :=
  [ entry 1 [230.0; 1.0; 1.0; 0.0]; entry 2 [229.0; 1.0; 1.0; 0.015];
    entry 3 [228.0; 1.0; 1.0; 0.015]; entry 4 [227.0; 1.0; 1.0; 0.015] ].

(** The same with negative resistances. *)
Definition series_negative : list point :=
  [ entry 1 [230.0; 1.0; 1.0; 0.0]; entry 2 [229.0; 1.0; 1.0; -0.015];
    entry 3 [228.0; 1.0; 1.0; -0.015]; entry 4 [227.0; 1.0; 1.0; -0.015] ].

(** Two candidates with the same positive delta, then the last one. *)
Definition series_tie : list point :=
  [ entry 1 [230.0; 0.0; 0.0; 0.0]; entry 2 [4.0; 1.0; 1.0; 0.5];
    entry 3 [3.0; 1.0; 1.0; 0.5]; entry 4 [2.0; 0.0; 1.0; 0.5];
    entry 5 [1.0; 2.0; 1.0; 0.5] ].

(** The same two candidates, and a last candidate far below its successor. *)
Definition series_tie_raise : list point :=
  [ entry 1 [230.0; 0.0; 0.0; 0.0]; entry 2 [4.0; 1.0; 1.0; 0.5];
    entry 3 [3.0; 1.0; 1.0; 0.5]; entry 4 [2.0; 0.0; 1.0; 0.5];
    entry 5 [1e200; 2.0; 1.0; 0.5] ].

(** A drop of 2.759 over a unit resistance, before a unit current: the
    delta is the square of the drop. *)
Definition series_ulp : list point :=
  [ entry 1 [0.0; 1.0; 1.0; 1.0]; entry 2 [2.759; 1.0; 1.0; 1.0];
    entry 3 [0.0; 1.0; 1.0; 1.0]; entry 4 [0.0; 1.0; 1.0; 1.0] ].

(** A drop of 2^500 over a resistance of 2^-40, before a current of 2^40:
    the power of the drop overflows where the single quotient does not. *)
Definition series_far : list point :=
  [ entry 1 [0.0; 1.0; 1.0; 1.0];
    entry 2 [0x1p+500; 1.0; 1.0; 0x1p-40];
    entry 3 [0.0; 1.0; 1.0; 0x1p-40];
    entry 4 [0.0; 0x1p+40; 1.0; 0x1p-40] ].

(** ** Auxiliary definitions of the proofs *)

(** Sign of a float that is not NaN. *)
Definition sign_of (X : spec_float) : option bool :=
  match X with
  | S754_nan => None
  | S754_zero s | S754_infinity s | S754_finite s _ _ => Some s
  end.

(** [X] is NaN or has sign [s]. *)
Definition sgn_ok (X : spec_float) (s : bool) : Prop :=
  sign_of X = None \/ sign_of X = Some s.

(** [SFcompare] orders the floats that are not NaN lexicographically: class
    (negative infinity, negative, zero, positive, positive infinity), then
    exponent, then mantissa. *)
Definition key (X : spec_float) : option (Z * Z * Z) :=
  match X with
  | S754_nan => None
  | S754_infinity true => Some (-2, 0, 0)%Z
  | S754_finite true m e => Some (-1, - e, - Z.pos m)%Z
  | S754_zero _ => Some (0, 0, 0)%Z
  | S754_finite false m e => Some (1, e, Z.pos m)%Z
  | S754_infinity false => Some (2, 0, 0)%Z
  end.

Definition lt3 (a b : Z * Z * Z) : Prop :=
  let '(a1, a2, a3) := a in
  let '(b1, b2, b3) := b in
  (a1 < b1 \/ (a1 = b1 /\ (a2 < b2 \/ (a2 = b2 /\ a3 < b3))))%Z.

Definition le3 (a b : Z * Z * Z) : Prop :=
  let '(a1, a2, a3) := a in
  let '(b1, b2, b3) := b in
  (a1 < b1 \/ (a1 = b1 /\ (a2 < b2 \/ (a2 = b2 /\ a3 <= b3))))%Z.

Definition fkey (x : float) : option (Z * Z * Z) := key (Prim2SF x).

Definition dkey (x : num) : option (Z * Z * Z) := fkey (to_float x).

Definition raised (e : option exn) : result unit :=
  match e with None => Ok tt | Some x => Raise x end.

Definition deltas_ok (l : list delta_rec) : Prop :=
  Forall (fun d => is_delta (delta d)) l.

Close Scope float_scope.

(** ** Further definitions: what the analyzer reads *)

(** The cells a call can read on records: the voltage of every record but
    the first, the identifier and the resistance of the candidates, the
    current of the records from index 3 on. *)
Definition read_cells (points : list point)
  : list float * list (Z * float) * list float :=
  (map volts (tl points),
   map (fun p => (ident p, resistance p)) (firstn (length points - 2) (tl points)),
   map ampers (skipn 3 points)).

(** [list(d.values())[0][index]] exists. *)
Definition has_cell (index : nat) (d : point) : bool :=
  match d with
  | (_, r) :: _ => index <? length r
  | [] => false
  end.

(** The first row of a dict, and the cell of that row at [index]. *)
Definition cell_at (index : nat) (d : point) : float :=
  nth index (row d) 0%float.

(** A NaN delta at the second candidate, finite deltas elsewhere. *)
Definition series_later_nan : list point :=
  [ entry 1 [0.0; 1.0; 1.0; 1.0]%float; entry 2 [1e308; 1.0; 1.0; 10.0]%float;
    entry 3 [1e308; 1.0; 1.0; 10.0]%float; entry 4 [-1e308; 1.0; 1.0; 10.0]%float;
    entry 5 [-1e308; 1e154; 1.0; 10.0]%float ].

(** [series_unit] with another first record, other powers, other currents
    in the first three records and another resistance in the last one. *)
Definition series_unit_variant : list point :=
  [ entry 9 [1.0; 2.0; 3.0; 4.0; 5.0]%float; entry 2 [229.0; 7.0; 8.0; 0.015]%float;
    entry 3 [228.0; 9.0; 10.0; 0.015; 0.0]%float; entry 7 [227.0; 1.0; 11.0; 12.0]%float ].

(** ** The converters (src/project/app/converters.py) *)

Import String.StringSyntax Ascii.AsciiSyntax.
Delimit Scope string_scope with string.
Delimit Scope char_scope with char.

Abbreviation string := String.string.

(** The outcome of code whose only exception is [KeyError]. *)
Inductive keyed (A : Type) : Type :=
| Found (a : A)
| KeyError (key : string).

Arguments Found {A} a.
Arguments KeyError {A} key.

Definition kbind {A B : Type} (m : keyed A) (k : A -> keyed B) : keyed B :=
  match m with
  | Found a => k a
  | KeyError key => KeyError key
  end.

Section Converters.

(** Python objects: cell values, identifiers, column names. The converters
    only move them around. *)
Variable V : Type.

(** Keys of an inner dict of a table (row labels). *)
Variable K : Type.

(** A dict with string keys, as its items in insertion order. *)
Definition str_dict : Type := list (string * V).

(** [d[k]] *)
Fixpoint dict_get (d : str_dict) (k : string) : keyed V :=
  match d with
  | [] => KeyError k
  | (k', v) :: d' => if String.eqb k' k then Found v else dict_get d' k
  end.

(** The body of the loop of [extract_home_data]: six lookups in this order,
    then the dict [{home_id: [volts, ampers, power, resistance, home_num]}]
    (the value of [home_id] is taken to be hashable, as the key of a table
    is). *)
Definition extract_point (point : str_dict) : keyed (list (V * list V)) :=
  kbind (dict_get point "home_id"%string) (fun home_id =>
  kbind (dict_get point "volts"%string) (fun volts =>
  kbind (dict_get point "ampers"%string) (fun ampers =>
  kbind (dict_get point "power"%string) (fun power =>
  kbind (dict_get point "resistance"%string) (fun resistance =>
  kbind (dict_get point "home_num"%string) (fun home_num =>
  Found [(home_id, [volts; ampers; power; resistance; home_num])])))))).

(** [for point in points: ... data_points.append(...)] *)
Fixpoint extract_loop (points : list str_dict)
    (data_points : list (list (V * list V))) : keyed (list (list (V * list V))) :=
  match points with
  | [] => Found data_points
  | point :: rest =>
      kbind (extract_point point) (fun d => extract_loop rest (data_points ++ [d]))
  end.

(** [extract_home_data(points)]: what it prints (its argument, once, before
    the loop) and its outcome. *)
Definition extract_home_data (points : list str_dict)
  : list (list str_dict) * keyed (list (list (V * list V))) :=
  ([points], extract_loop points []).

(** [normalize_dict_to_list(data)]: for each item of [data], the key
    followed by the values of the nested dict. *)
Definition normalize_dict_to_list (data : list (V * list (K * V))) : list (list V) :=
  fold_left
    (fun data_values item =>
       let '(point, nested_dict) := item in
       let values :=
         fold_left (fun values value => values ++ [value])
           (map snd nested_dict) [point] in
       data_values ++ [values])
    data [].

(** *** The upload handler [add_points_excel] (src/project/app/main.py)

    The handler from the dict [df.to_dict()] on: the calls it makes to the
    session and to [log_db_operation], in order, and its outcome. Reading the
    file and printing are left to the caller of this model; the constructor
    [Point], the session and the log are taken not to fail. *)

(** The keyword arguments of [Point(...)]. *)
Record point_args : Type := mk_point_args {
  arg_home_num : V;
  arg_volts : V;
  arg_ampers : V;
  arg_power : V;
  arg_resistance : V
}.

Inductive db_event : Type :=
| SessionAdd (p : point_args)
| SessionCommit
| LogInfo (count : nat)
| LogError.

(** [Point(home_num=point[0], volts=point[1], ampers=point[2],
    power=point[3], resistance=point[4])] *)
Definition point_of_row (point : list V) : result point_args :=
  home_num <- getitem point 0 ;;
  volts <- getitem point 1 ;;
  ampers <- getitem point 2 ;;
  power <- getitem point 3 ;;
  resistance <- getitem point 4 ;;
  Ok (mk_point_args home_num volts ampers power resistance).

(** [for point in points[1:]: session.add(Point(...)); created_count += 1] *)
Fixpoint excel_loop (rows : list (list V)) (created_count : nat)
    (trace : list db_event) : list db_event * result nat :=
  match rows with
  | [] => (trace, Ok created_count)
  | point :: rest =>
      match point_of_row point with
      | Ok point_obj =>
          excel_loop rest (created_count + 1) (trace ++ [SessionAdd point_obj])
      | Raise e => (trace, Raise e)
      end
  end.

Definition add_points_excel (table : list (V * list (K * V)))
  : list db_event * result nat :=
  let points := normalize_dict_to_list table in
  match excel_loop (skipn 1 points) 0 [] with
  | (trace, Ok created_count) =>
      (trace ++ [SessionCommit; LogInfo created_count], Ok created_count)
  | (trace, Raise e) => (trace ++ [LogError], Raise e)
  end.

(** *** The loop of [update_point] (src/project/app/main.py) *)

(** The fields of [PointUpdate]: the keys [model_dump] can give. *)
Inductive field : Type :=
| F_home_num | F_volts | F_ampers | F_power | F_resistance.

Definition field_eqb (a b : field) : bool :=
  match a, b with
  | F_home_num, F_home_num | F_volts, F_volts | F_ampers, F_ampers
  | F_power, F_power | F_resistance, F_resistance => true
  | _, _ => false
  end.

(** A [Point] object: its attributes. *)
Record point_obj : Type := mk_point_obj {
  attr_home_id : V;
  attr_home_num : V;
  attr_volts : V;
  attr_ampers : V;
  attr_power : V;
  attr_resistance : V
}.

Definition getattr (p : point_obj) (f : field) : V :=
  match f with
  | F_home_num => attr_home_num p
  | F_volts => attr_volts p
  | F_ampers => attr_ampers p
  | F_power => attr_power p
  | F_resistance => attr_resistance p
  end.

Definition setattr (p : point_obj) (f : field) (v : V) : point_obj :=
  match f with
  | F_home_num =>
      mk_point_obj (attr_home_id p) v (attr_volts p) (attr_ampers p)
        (attr_power p) (attr_resistance p)
  | F_volts =>
      mk_point_obj (attr_home_id p) (attr_home_num p) v (attr_ampers p)
        (attr_power p) (attr_resistance p)
  | F_ampers =>
      mk_point_obj (attr_home_id p) (attr_home_num p) (attr_volts p) v
        (attr_power p) (attr_resistance p)
  | F_power =>
      mk_point_obj (attr_home_id p) (attr_home_num p) (attr_volts p)
        (attr_ampers p) v (attr_resistance p)
  | F_resistance =>
      mk_point_obj (attr_home_id p) (attr_home_num p) (attr_volts p)
        (attr_ampers p) (attr_power p) v
  end.

(** [for field, value in update_data.items():
       if value is not None: setattr(point, field, value)];
    a value of [None] is [None] here. *)
Definition apply_update (point : point_obj)
    (update_data : list (field * option V)) : point_obj :=
  fold_left
    (fun point item =>
       match snd item with
       | Some value => setattr point (fst item) value
       | None => point
       end)
    update_data point.

(** [update_data[f]], if any. *)
Fixpoint update_get (update_data : list (field * option V)) (f : field)
  : option (option V) :=
  match update_data with
  | [] => None
  | (f', v) :: rest => if field_eqb f' f then Some v else update_get rest f
  end.

(** Specification side: the keys [extract_point] looks up, in its order. *)
Definition point_keys : list string :=
  ["home_id"; "volts"; "ampers"; "power"; "resistance"; "home_num"]%string.

Definition has_key (d : str_dict) (k : string) : bool :=
  match dict_get d k with Found _ => true | KeyError _ => false end.

(** [d] has every key of [point_keys]. *)
Definition complete (d : str_dict) : bool := forallb (has_key d) point_keys.

(** The first of [point_keys] that [d] lacks. *)
Definition missing_key (d : str_dict) : option string :=
  find (fun k => negb (has_key d k)) point_keys.

(** [e] is the dict [extract_point] builds from [d]. *)
Definition is_entry (d : str_dict) (e : list (V * list V)) : Prop :=
  exists home_id volts ampers power resistance home_num,
    dict_get d "home_id"%string = Found home_id /\
    dict_get d "volts"%string = Found volts /\
    dict_get d "ampers"%string = Found ampers /\
    dict_get d "power"%string = Found power /\
    dict_get d "resistance"%string = Found resistance /\
    dict_get d "home_num"%string = Found home_num /\
    e = [(home_id, [volts; ampers; power; resistance; home_num])].

(** The row [normalize_dict_to_list] makes of a column. *)
Definition row_of (col : V * list (K * V)) : list V :=
  fst col :: map snd (snd col).

(** A column of the table with at least four cells, and the arguments the
    handler builds from it. *)
Definition column_args (col : V * list (K * V)) : option point_args :=
  match map snd (snd col) with
  | volts :: ampers :: power :: resistance :: _ =>
      Some (mk_point_args (fst col) volts ampers power resistance)
  | _ => None
  end.

Definition full_column (col : V * list (K * V)) : bool :=
  4 <=? length (snd col).

(** What the handler reads of a table: of every column but the first, the
    name and the first four cells. *)
Definition read_columns (table : list (V * list (K * V))) : list (V * list V) :=
  map (fun col => (fst col, firstn 4 (map snd (snd col)))) (tl table).

(** The value of field [f] after the update: the one of [update_data] when
    there is one and it is not [None], the old one otherwise. *)
Definition updated (point : point_obj) (update_data : list (field * option V))
    (f : field) : V :=
  match update_get update_data f with
  | Some (Some value) => value
  | _ => getattr point f
  end.

End Converters.

Arguments dict_get {V} d k.
Arguments extract_point {V} point.
Arguments extract_loop {V} points data_points.
Arguments extract_home_data {V} points.
Arguments normalize_dict_to_list {V K} data.
Arguments mk_point_args {V} _ _ _ _ _.
Arguments SessionAdd {V} p.
Arguments SessionCommit {V}.
Arguments LogInfo {V} count.
Arguments LogError {V}.
Arguments point_of_row {V} point.
Arguments excel_loop {V} rows created_count trace.
Arguments add_points_excel {V K} table.
Arguments mk_point_obj {V} _ _ _ _ _ _.
Arguments attr_home_id {V} p.
Arguments getattr {V} p f.
Arguments setattr {V} p f v.
Arguments apply_update {V} point update_data.
Arguments update_get {V} update_data f.
Arguments has_key {V} d k.
Arguments complete {V} d.
Arguments missing_key {V} d.
Arguments is_entry {V} d e.
Arguments row_of {V K} col.
Arguments column_args {V K} col.
Arguments full_column {V K} col.
Arguments read_columns {V K} table.
Arguments updated {V} point update_data f.

(** ** The log store client (src/project/app/clickhouse_client.py) *)

Set Warnings "-register-all".

(** The values of log records and of query parameters. *)
Inductive obj : Type :=
| ONone
| OBool (b : bool)
| OInt (z : Z)
| OFloat (f : float)
| OStr (s : string)
| ODatetime (t : Z)
| ODict (items : list (string * obj)).

Arguments OInt z%_Z.
Arguments OFloat f%_float.
Arguments OStr s%_string.
Arguments ODatetime t%_Z.

(** [bool(v)] *)
Definition truthy (v : obj) : bool :=
  match v with
  | ONone => false
  | OBool b => b
  | OInt z => negb (z =? 0)%Z
  | OFloat f => negb (f =? 0)%float
  | OStr s => negb (String.eqb s "")
  | ODatetime _ => true
  | ODict items => match items with [] => false | _ :: _ => true end
  end.

(** An optional argument: [None] is [ONone]. *)
Definition opt_str (s : option string) : obj :=
  match s with Some s => OStr s | None => ONone end.

Definition opt_datetime (t : option Z) : obj :=
  match t with Some t => ODatetime t | None => ONone end.

Definition opt_dict (d : option (list (string * obj))) : obj :=
  match d with Some d => ODict d | None => ONone end.

(** [d[k] = v] *)
Fixpoint dict_set {V : Type} (d : list (string * V)) (k : string) (v : V)
  : list (string * V) :=
  match d with
  | [] => [(k, v)]
  | (k', v') :: d' =>
      if String.eqb k' k then (k, v) :: d' else (k', v') :: dict_set d' k v
  end.

(** [d.get(k, default)] *)
Definition dict_get_default {V : Type} (d : list (string * V)) (k : string)
    (default : V) : V :=
  match dict_get d k with
  | Found v => v
  | KeyError _ => default
  end.

Definition newline : string :=
  String.String (Ascii.ascii_of_nat 10) String.EmptyString.

(** A text given by its lines. *)
Definition text (lines : list string) : string := String.concat newline lines.

Definition create_table_query : string := text [
    "";
    "        CREATE TABLE IF NOT EXISTS api_logs";
    "        (";
    "            log_id UUID DEFAULT generateUUIDv4(),";
    "            timestamp DateTime DEFAULT now(),";
    "            level String,";
    "            service String,";
    "            endpoint String,";
    "            method String,";
    "            status_code Nullable(Int32),";
    "            client_ip Nullable(String),";
    "            user_agent Nullable(String),";
    "            request_duration_ms Nullable(Float64),";
    "            request_body Nullable(String),";
    "            response_body Nullable(String),";
    "            error_message Nullable(String),";
    "            user_id Nullable(String),";
    "            params Nullable(String),";
    "            created_at DateTime DEFAULT now()";
    "        )";
    "        ENGINE = MergeTree()";
    "        ORDER BY (timestamp, service, level)";
    "        PARTITION BY toYYYYMM(timestamp)";
    "        TTL created_at + INTERVAL 30 DAY";
    "        SETTINGS index_granularity = 8192;";
    "        " ]%string.

Definition insert_query : string := text [
    "";
    "        INSERT INTO api_logs ";
    "        (level, service, endpoint, method, status_code, client_ip, user_agent, ";
    "         request_duration_ms, request_body, response_body, error_message, user_id, params)";
    "        VALUES";
    "        " ]%string.

Definition query : string := text [
    "";
    "        SELECT ";
    "            log_id,";
    "            timestamp,";
    "            level,";
    "            service,";
    "            endpoint,";
    "            method,";
    "            status_code,";
    "            client_ip,";
    "            user_agent,";
    "            request_duration_ms,";
    "            request_body,";
    "            response_body,";
    "            error_message,";
    "            user_id,";
    "            params";
    "        FROM api_logs ";
    "        WHERE 1=1";
    "        " ]%string.

(** A call of the driver's [execute]: the query and, when given, the
    parameters. *)
Definition call : Type := string * option (list (string * obj)).

Section Client.

Local Open Scope string_scope.
Local Infix "++" := String.append : string_scope.

(** The driver's client objects and the rows it returns. *)
Variable Client : Type.
Variable LogRow : Type.

(** [json.dumps], taken to return. *)
Variable json_dumps : obj -> string.

(** [str.upper] *)
Variable upper : string -> string.

(** The answer of the driver to a call: a value, or its [Error] raised. *)
Inductive reply : Type :=
| Returned (rows : list LogRow)
| DriverError.

Variable driver : call -> reply.

Record ClickHouseClient : Type := mk_client {
  client : option Client;
  _connected : bool
}.

(** [__init__] *)
Definition init : ClickHouseClient := mk_client None false.

(** [execute(self, query, params)]: the calls made to the driver and the
    value returned. *)
Definition execute (self : ClickHouseClient) (query : string)
    (params : option (list (string * obj))) : list call * option (list LogRow) :=
  if negb (_connected self)
     || match client self with None => true | Some _ => false end
  then ([], None)
  else
    let c := (query, if truthy (opt_dict params) then params else None) in
    match driver c with
    | Returned rows => ([c], Some rows)
    | DriverError => ([c], None)
    end.

(** [_create_logs_table(self)] *)
Definition _create_logs_table (self : ClickHouseClient) : list call :=
  fst (execute self create_table_query None).

(** [connect(self)]; [created] is the outcome of [Client(...)], [None] when
    it raises the driver's [Error]. *)
Definition connect (self : ClickHouseClient) (created : option Client)
  : list call * ClickHouseClient :=
  match created with
  | Some c =>
      let self := mk_client (Some c) (_connected self) in
      let self := mk_client (client self) true in
      (_create_logs_table self, self)
  | None => ([], mk_client (client self) false)
  end.

(** [disconnect(self)]; [ok] tells whether the driver's [disconnect]
    returns. *)
Definition disconnect (self : ClickHouseClient) (ok : bool) : ClickHouseClient :=
  match client self with
  | Some _ =>
      if _connected self
      then if ok then mk_client (client self) false else self
      else self
  | None => self
  end.

(** The statement and the parameters [insert_log] passes to [execute]. *)
Definition insert_log_request (log_data : list (string * obj))
  : string * list (string * obj) :=
  let prepared_params :=
    [ ("level", dict_get_default log_data "level" (OStr "INFO"));
      ("service", dict_get_default log_data "service" (OStr "unknown"));
      ("endpoint", dict_get_default log_data "endpoint" (OStr ""));
      ("method", dict_get_default log_data "method" (OStr "GET"));
      ("status_code", dict_get_default log_data "status_code" ONone);
      ("client_ip", dict_get_default log_data "client_ip" ONone);
      ("user_agent", dict_get_default log_data "user_agent" ONone);
      ("request_duration_ms",
        dict_get_default log_data "request_duration_ms" ONone);
      ("request_body", dict_get_default log_data "request_body" ONone);
      ("response_body", dict_get_default log_data "response_body" ONone);
      ("error_message", dict_get_default log_data "error_message" ONone);
      ("user_id", dict_get_default log_data "user_id" ONone);
      ("params",
        if truthy (dict_get_default log_data "params" ONone)
        then OStr (json_dumps (dict_get_default log_data "params" ONone))
        else ONone) ] in
  (insert_query ++
     (" (%(level)s, %(service)s, %(endpoint)s, %(method)s, %(status_code)s, " ++
      "%(client_ip)s, %(user_agent)s, %(request_duration_ms)s, %(request_body)s, " ++
      "%(response_body)s, %(error_message)s, %(user_id)s, %(params)s)"),
   prepared_params).

(** [insert_log(self, log_data)]: the calls made to the driver. *)
Definition insert_log (self : ClickHouseClient) (log_data : list (string * obj))
  : list call :=
  if negb (_connected self) then []
  else
    let '(statement, prepared_params) := insert_log_request log_data in
    fst (execute self statement (Some prepared_params)).

(** The query and the parameters [get_logs] builds. *)
Definition get_logs_request (limit : Z) (level endpoint : option string)
    (start_date end_date : option Z) : string * list (string * obj) :=
  let params : list (string * obj) := [] in
  let '(query, params) :=
    if truthy (opt_str level)
    then (query ++ " AND level = %(level)s",
          dict_set params "level" (opt_str level))
    else (query, params) in
  let '(query, params) :=
    if truthy (opt_str endpoint)
    then (query ++ " AND endpoint LIKE %(endpoint)s",
          dict_set params "endpoint"
            (OStr ("%" ++ match endpoint with Some e => e | None => "" end ++ "%")))
    else (query, params) in
  let '(query, params) :=
    if truthy (opt_datetime start_date)
    then (query ++ " AND timestamp >= %(start_date)s",
          dict_set params "start_date" (opt_datetime start_date))
    else (query, params) in
  let '(query, params) :=
    if truthy (opt_datetime end_date)
    then (query ++ " AND timestamp <= %(end_date)s",
          dict_set params "end_date" (opt_datetime end_date))
    else (query, params) in
  (query ++ " ORDER BY timestamp DESC LIMIT %(limit)s",
   dict_set params "limit" (OInt limit)).

(** [get_logs(self, limit, level, endpoint, start_date, end_date)]: the
    calls made to the driver and the list returned. *)
Definition get_logs (self : ClickHouseClient) (limit : Z)
    (level endpoint : option string) (start_date end_date : option Z)
  : list call * list LogRow :=
  if negb (_connected self) then ([], [])
  else
    let '(query, params) :=
      get_logs_request limit level endpoint start_date end_date in
    let '(calls, result) := execute self query (Some params) in
    (calls,
     match result with
     | Some (row :: rows) => row :: rows
     | _ => []
     end).

(** The record [log_db_operation] (src/project/app/main.py) hands to
    [insert_log]. *)
Definition log_db_operation (operation table : string)
    (data : option (list (string * obj))) (error : option string)
  : list (string * obj) :=
  [ ("level", if truthy (opt_str error) then OStr "ERROR" else OStr "INFO");
    ("service", OStr "database");
    ("endpoint", OStr ("db." ++ table));
    ("method", OStr (upper operation));
    ("status_code", if truthy (opt_str error) then OInt 500 else OInt 200);
    ("client_ip", ONone);
    ("user_agent", ONone);
    ("request_duration_ms", ONone);
    ("request_body",
      if truthy (opt_dict data) then OStr (json_dumps (opt_dict data)) else ONone);
    ("response_body", ONone);
    ("error_message", opt_str error);
    ("user_id", ONone);
    ("params", ODict [("table", OStr table); ("operation", OStr operation)]) ].

(** The operations on a client, with what the driver does at each. *)
Inductive client_op : Type :=
| Connect (created : option Client)
| Disconnect (ok : bool).

Definition client_step (self : ClickHouseClient) (o : client_op)
  : ClickHouseClient :=
  match o with
  | Connect created => snd (connect self created)
  | Disconnect ok => disconnect self ok
  end.

(** The client after a history of operations, from [__init__] on. *)
Definition client_after (history : list client_op) : ClickHouseClient :=
  fold_left client_step history init.

End Client.

Arguments Returned {LogRow} rows.
Arguments DriverError {LogRow}.
Arguments mk_client {Client} _ _.
Arguments client {Client} _.
Arguments _connected {Client} _.
Arguments init {Client}.
Arguments execute {Client LogRow} driver self query params.
Arguments _create_logs_table {Client LogRow} driver self.
Arguments connect {Client LogRow} driver self created.
Arguments disconnect {Client} self ok.
Arguments insert_log {Client LogRow} json_dumps driver self log_data.
Arguments get_logs {Client LogRow} driver self limit level endpoint start_date end_date.
Arguments Connect {Client} created.
Arguments Disconnect {Client} ok.
Arguments client_step {Client LogRow} driver self o.
Arguments client_after {Client LogRow} driver history.

(** Specification side: the placeholders [%(name)s] of a query text. *)
Inductive scan_state : Type :=
| InText
| AfterPercent
| InName (name : string)
| AfterName.

(** The names of the placeholders of [s], in the order of the text, read
    from state [st] on; [None] when a percent sign does not start a
    placeholder [%(name)s]. *)
Fixpoint placeholders_from (s : string) (st : scan_state) (found : list string)
  : option (list string) :=
  match s, st with
  | String.EmptyString, InText => Some found
  | String.EmptyString, _ => None
  | String.String c rest, InText =>
      if Ascii.eqb c "%"%char
      then placeholders_from rest AfterPercent found
      else placeholders_from rest InText found
  | String.String c rest, AfterPercent =>
      if Ascii.eqb c "("%char
      then placeholders_from rest (InName String.EmptyString) found
      else None
  | String.String c rest, InName name =>
      if Ascii.eqb c ")"%char
      then placeholders_from rest AfterName (found ++ [name])
      else placeholders_from rest
             (InName (String.append name (String.String c String.EmptyString)))
             found
  | String.String c rest, AfterName =>
      if Ascii.eqb c "s"%char
      then placeholders_from rest InText found
      else None
  end.

Definition placeholders (s : string) : option (list string) :=
  placeholders_from s InText [].

(** Which of the optional filters of [get_logs] are in force. *)
Definition filters (level endpoint : option string)
    (start_date end_date : option Z) : bool * bool * bool * bool :=
  (truthy (opt_str level), truthy (opt_str endpoint),
   truthy (opt_datetime start_date), truthy (opt_datetime end_date)).

(** ** Sample inputs of the converters, the handlers and the client *)

(** Two rows of the table [points] as [model_dump] gives them; the second
    one with its keys in another order and a key more. *)
Definition sample_dicts : list (list (string * obj)) :=
  [ [ ("home_num", OStr "12a"); ("volts", OFloat 230.0); ("ampers", OFloat 5.0);
      ("power", OFloat 1150.0); ("resistance", OFloat 46.0); ("home_id", OInt 1) ];
    [ ("home_id", OInt 2); ("note", ONone); ("resistance", OFloat 57.25);
      ("power", OFloat 916.0); ("ampers", OFloat 4.0); ("volts", OFloat 229.0);
      ("home_num", OStr "14") ] ]%string.

(** A sheet as [to_dict] gives it: by column, then by row label. *)
Definition sample_table : list (obj * list (Z * obj)) :=
  [ (OStr "Unnamed: 0",
      [ (0, OStr "volts"); (1, OStr "ampers"); (2, OStr "power");
        (3, OStr "resistance") ]);
    (OStr "12a",
      [ (0, OFloat 230.0); (1, OFloat 5.0); (2, OFloat 1150.0);
        (3, OFloat 46.0) ]);
    (OStr "14",
      [ (0, OFloat 229.0); (1, OFloat 4.0); (2, OFloat 916.0);
        (3, OFloat 57.25) ]) ]%string%Z.

(** The same sheet with other row labels, another first column and a row
    more. *)
Definition sample_table_variant : list (obj * list (string * obj)) :=
  [ (OInt 0, []);
    (OStr "12a",
      [ ("a", OFloat 230.0); ("b", OFloat 5.0); ("c", OFloat 1150.0);
        ("d", OFloat 46.0); ("e", OStr "north") ]);
    (OStr "14",
      [ ("a", OFloat 229.0); ("b", OFloat 4.0); ("c", OFloat 916.0);
        ("d", OFloat 57.25); ("e", ONone) ]) ]%string.

(** A sheet of three rows. *)
Definition sample_table_short : list (obj * list (Z * obj)) :=
  [ (OStr "Unnamed: 0", [ (0, OStr "volts"); (1, OStr "ampers"); (2, OStr "power") ]);
    (OStr "12a", [ (0, OFloat 230.0); (1, OFloat 5.0); (2, OFloat 1150.0) ]);
    (OStr "14", [ (0, OFloat 229.0); (1, OFloat 4.0); (2, OFloat 916.0) ]) ]%string%Z.

Definition sample_point : point_obj obj :=
  mk_point_obj (OInt 1) (OStr "12a") (OFloat 230.0) (OFloat 5.0)
    (OFloat 1150.0) (OFloat 46.0).

Definition sample_update : list (field * option obj) :=
  [ (F_volts, Some (OFloat 228.5)); (F_power, None);
    (F_home_num, Some (OStr "12b")) ].

(** ** A C library

    A libm whose [pow] is correctly rounded: the square is the float
    product, and no range error is reported (an infinite value is one all
    the same, see [float_pow2]).  The closed statements of this file, its
    examples and the instances of its theorems, are about this libm; on
    their inputs glibc's [pow] returns the same squares. *)
#[export] Instance correctly_rounded : Libm :=
  {| libm_pow2 := fun a => ((a * a)%float, false) |}.

(** A libm that is one unit in the last place below it on one argument, as
    glibc 2.36 is at 2.759 (its [pow(2.759, 2.0)] is [0x1.e72c55c96030bp+2],
    the product is [0x1.e72c55c96030cp+2]). *)
Definition one_ulp_off : Libm :=
  {| libm_pow2 := fun a =>
       if (a =? 2.759)%float then (0x1.e72c55c96030bp+2%float, false)
       else ((a * a)%float, false) |}.

(** ** Facts on binary64 arithmetic *)

Section FloatFacts.

(** *** Signs *)

Lemma binary_round_aux_sign s m e l :
  sgn_ok (binary_round_aux prec emax s m e l) s.
Proof.
  unfold binary_round_aux.
  destruct (shr_fexp prec emax m e l) as [mrs e1].
  destruct (shr_fexp prec emax _ e1 loc_Exact) as [mrs2 e2].
  destruct (shr_m mrs2); [right | | left]; try reflexivity.
  destruct (e2 <=? emax - prec)%Z; right; reflexivity.
Qed.

Lemma SFmul_sign X Y a b :
  sgn_ok X a -> sgn_ok Y b -> sgn_ok (SF64mul X Y) (xorb a b).
Proof.
  unfold sgn_ok, SF64mul.
  destruct X as [sx|sx| |sx mx ex], Y as [sy|sy| |sy my ey]; simpl;
    intros [HX|HX] [HY|HY]; try discriminate; auto;
    injection HX as ->; injection HY as ->; auto.
  apply binary_round_aux_sign.
Qed.

Lemma SFdiv_sign X Y a b :
  sgn_ok X a -> sgn_ok Y b -> sgn_ok (SF64div X Y) (xorb a b).
Proof.
  unfold sgn_ok, SF64div.
  destruct X as [sx|sx| |sx mx ex], Y as [sy|sy| |sy my ey]; simpl;
    intros [HX|HX] [HY|HY]; try discriminate; auto;
    injection HX as ->; injection HY as ->; auto.
  destruct (SFdiv_core_binary prec emax (Z.pos mx) ex (Z.pos my) ey) as [[mz ez] lz].
  apply binary_round_aux_sign.
Qed.

Lemma sgn_ok_any X : exists s, sgn_ok X s.
Proof. destruct X as [s|s| |s m e]; try (exists s; right; reflexivity). exists false; left; reflexivity. Qed.

Lemma sgn_ok_square X : sgn_ok (SF64mul X X) false.
Proof.
  destruct (sgn_ok_any X) as [s H].
  replace false with (xorb s s) by (destruct s; reflexivity).
  now apply SFmul_sign.
Qed.

(** A float of positive sign is NaN or at least zero. *)
Lemma sgn_ok_nonneg X :
  sgn_ok X false -> X = S754_nan \/ SFleb (S754_zero false) X = true.
Proof.
  destruct X as [s|s| |s m e]; intros [H|H]; try discriminate; auto;
    injection H as ->; right; reflexivity.
Qed.

Lemma sgn_ok_not_neg X :
  sgn_ok X false -> SFltb X (S754_zero false) = false.
Proof.
  destruct X as [s|s| |s m e]; intros [H|H]; try discriminate; auto;
    injection H as ->; reflexivity.
Qed.

(** *** The order *)

Ltac order_cases :=
  repeat match goal with
    | |- context [Pos.compare_cont Eq ?a ?b] =>
        change (Pos.compare_cont Eq a b) with (Pos.compare a b)
    | |- context [Z.compare ?a ?b] => destruct (Z.compare_spec a b)
    | |- context [Pos.compare ?a ?b] => destruct (Pos.compare_spec a b)
    end.

Lemma SFltb_key X Y :
  SFltb X Y = true <->
  exists a b, key X = Some a /\ key Y = Some b /\ lt3 a b.
Proof.
  unfold SFltb, SFcompare.
  destruct X as [[]|[]| |[] m e], Y as [[]|[]| |[] m' e']; cbn [key];
    order_cases; cbn;
    (split;
     [ try discriminate; intros _; eexists _, _; repeat split; cbn; lia
     | intros (a & b & Ha & Hb & Hab); try discriminate;
       injection Ha as <-; injection Hb as <-; cbn in Hab; try reflexivity; lia ]).
Qed.

Lemma SFleb_key X Y :
  SFleb X Y = true <->
  exists a b, key X = Some a /\ key Y = Some b /\ le3 a b.
Proof.
  unfold SFleb, SFcompare.
  destruct X as [[]|[]| |[] m e], Y as [[]|[]| |[] m' e']; cbn [key];
    order_cases; cbn;
    (split;
     [ try discriminate; intros _; eexists _, _; repeat split; cbn; lia
     | intros (a & b & Ha & Hb & Hab); try discriminate;
       injection Ha as <-; injection Hb as <-; cbn in Hab; try reflexivity; lia ]).
Qed.

End FloatFacts.

(** ** Facts on the primitive floats and on the Python operations *)

Section PrimFacts.

Context {libm : Libm}.

Local Open Scope float_scope.

Lemma ltb_key x y :
  (x <? y) = true <->
  exists a b, fkey x = Some a /\ fkey y = Some b /\ lt3 a b.
Proof. rewrite FloatAxioms.ltb_spec. apply SFltb_key. Qed.

Lemma leb_key x y :
  (x <=? y) = true <->
  exists a b, fkey x = Some a /\ fkey y = Some b /\ le3 a b.
Proof. rewrite FloatAxioms.leb_spec. apply SFleb_key. Qed.

Lemma SFeqb_refl X :
  SFeqb X X = match X with S754_nan => false | _ => true end.
Proof.
  unfold SFeqb, SFcompare.
  destruct X as [[]|[]| |[] m e]; try reflexivity;
    rewrite Z.compare_refl;
    change (Pos.compare_cont Eq m m) with (Pos.compare m m);
    rewrite Pos.compare_refl; reflexivity.
Qed.

Lemma is_nan_spec x :
  is_nan x = match Prim2SF x with S754_nan => true | _ => false end.
Proof.
  unfold is_nan. rewrite FloatAxioms.eqb_spec, SFeqb_refl.
  destruct (Prim2SF x); reflexivity.
Qed.

Lemma is_infinity_spec x :
  is_infinity x = match Prim2SF x with S754_infinity _ => true | _ => false end.
Proof.
  unfold is_infinity. rewrite FloatAxioms.eqb_spec, FloatAxioms.abs_spec.
  destruct (Prim2SF x) as [[]|[]| |[] m e]; reflexivity.
Qed.

Lemma eqb_zero_spec x :
  (x =? 0) = match Prim2SF x with S754_zero _ => true | _ => false end.
Proof.
  rewrite FloatAxioms.eqb_spec.
  destruct (Prim2SF x) as [[]|[]| |[] m e]; reflexivity.
Qed.

Lemma abs_square x : (abs x * abs x = x * x)%float.
Proof.
  apply Prim2SF_inj. rewrite !FloatAxioms.mul_spec, FloatAxioms.abs_spec.
  destruct (Prim2SF x) as [s|s| |s m e]; cbn [SFabs]; unfold SF64mul, SFmul;
    rewrite ?xorb_nilpotent; reflexivity.
Qed.

Lemma Prim2SF_one : Prim2SF 1 = S754_finite false 4503599627370496 (-52).
Proof. vm_compute. reflexivity. Qed.

Lemma Prim2SF_zero : Prim2SF 0 = S754_zero false.
Proof. vm_compute. reflexivity. Qed.

Lemma SFeqb_finite s m e m' e' :
  SFeqb (SFabs (S754_finite s m e)) (S754_finite false m' e') = true ->
  m = m' /\ e = e'.
Proof.
  unfold SFabs, SFeqb, SFcompare.
  change (Pos.compare_cont Eq m m') with (Pos.compare m m').
  destruct (Z.compare_spec e e'); try discriminate.
  destruct (Pos.compare_spec m m'); try discriminate.
  auto.
Qed.

(** When [x ** 2] returns, it returns the square. *)
Lemma float_pow2_ok x y : float_pow2 x = Ok y -> y = square x.
Proof.
  unfold float_pow2, square.
  destruct (is_nan x); [now intros [= <-]|].
  destruct (is_infinity x); [now intros [= <-]|].
  destruct (x =? 0); [now intros [= <-]|].
  destruct (abs x =? 1); [now intros [= <-]|].
  destruct (libm_pow2 (abs x)) as [ix erange]. cbn [fst].
  destruct (if erange then negb (ix =? 0) else is_infinity ix);
    [discriminate | now intros [= <-]].
Qed.

Lemma float_pow2_raise x e : float_pow2 x = Raise e -> e = OverflowError.
Proof.
  unfold float_pow2.
  destruct (libm_pow2 (abs x)) as [ix erange].
  repeat match goal with |- context [if ?b then _ else _] => destruct b end;
    congruence.
Qed.

Lemma zero_lt_abs x :
  is_nan x = false -> (x =? 0) = false -> (0 <? abs x) = true.
Proof.
  rewrite is_nan_spec, eqb_zero_spec, FloatAxioms.ltb_spec,
    FloatAxioms.abs_spec, Prim2SF_zero.
  destruct (Prim2SF x) as [s|s| |s m e]; try discriminate; reflexivity.
Qed.

(** With a [pow] that returns nothing negative, a square is NaN or of
    positive sign. *)
Lemma square_sign x : pow2_positive -> sgn_ok (Prim2SF (square x)) false.
Proof.
  intros P. unfold square.
  destruct (is_nan x) eqn:En.
  { left. rewrite is_nan_spec in En. now destruct (Prim2SF x). }
  destruct (is_infinity x) eqn:Ei.
  { right. rewrite is_infinity_spec in Ei. rewrite FloatAxioms.abs_spec.
    now destruct (Prim2SF x). }
  destruct (x =? 0) eqn:Ez; [right; now rewrite Prim2SF_zero|].
  destruct (abs x =? 1); [right; now rewrite Prim2SF_one|].
  specialize (P (abs x) (zero_lt_abs x En Ez)).
  destruct (Prim2SF (fst (libm_pow2 (abs x)))); [right|right|left|right];
    cbn; congruence.
Qed.

End PrimFacts.

(** *** The correctly rounded libm *)

Section CorrectlyRounded.

Local Open Scope float_scope.

Lemma correctly_rounded_positive : pow2_positive (libm:=correctly_rounded).
Proof.
  intros a _. cbn [libm_pow2 correctly_rounded fst].
  rewrite FloatAxioms.mul_spec.
  destruct (sgn_ok_square (Prim2SF a)) as [H|H];
    destruct (SF64mul (Prim2SF a) (Prim2SF a)); try discriminate;
    try exact I; now injection H.
Qed.

(** With it the square is the float product. *)
Lemma square_correctly_rounded x :
  square (libm:=correctly_rounded) x = (x * x)%float.
Proof.
  unfold square. cbn [libm_pow2 correctly_rounded fst].
  rewrite is_nan_spec, is_infinity_spec, eqb_zero_spec.
  destruct (Prim2SF x) as [s|s| |s m e] eqn:E.
  - apply Prim2SF_inj.
    rewrite FloatAxioms.mul_spec, E, Prim2SF_zero.
    unfold SF64mul, SFmul. now rewrite xorb_nilpotent.
  - apply Prim2SF_inj.
    rewrite FloatAxioms.mul_spec, FloatAxioms.abs_spec, E.
    unfold SF64mul, SFmul, SFabs. now rewrite xorb_nilpotent.
  - apply Prim2SF_inj. rewrite FloatAxioms.mul_spec, E. reflexivity.
  - destruct (abs x =? 1)%float eqn:E1.
    + apply Prim2SF_inj.
      rewrite <- abs_square, FloatAxioms.mul_spec.
      rewrite FloatAxioms.eqb_spec, FloatAxioms.abs_spec, E in E1.
      rewrite Prim2SF_one in E1. apply SFeqb_finite in E1.
      destruct E1 as [-> ->].
      rewrite FloatAxioms.abs_spec, E, Prim2SF_one.
      unfold SFabs. vm_compute. reflexivity.
    + apply abs_square.
Qed.

(** With it [x ** 2] raises exactly when [x] is finite and its square is
    not. *)
Lemma pow2_raises_spec x :
  pow2_raises (libm:=correctly_rounded) x
  = negb (is_infinity x) && is_infinity (x * x)%float.
Proof.
  unfold pow2_raises, float_pow2. cbn [libm_pow2 correctly_rounded].
  destruct (is_nan x) eqn:En.
  - rewrite is_nan_spec in En. rewrite !is_infinity_spec, FloatAxioms.mul_spec.
    destruct (Prim2SF x); try discriminate. reflexivity.
  - destruct (is_infinity x) eqn:Ei; [reflexivity|].
    destruct (x =? 0)%float eqn:Ez.
    + rewrite eqb_zero_spec in Ez. rewrite is_infinity_spec, FloatAxioms.mul_spec.
      destruct (Prim2SF x); try discriminate. reflexivity.
    + destruct (abs x =? 1)%float eqn:E1.
      * rewrite <- abs_square, is_infinity_spec, FloatAxioms.mul_spec.
        rewrite FloatAxioms.eqb_spec, FloatAxioms.abs_spec, Prim2SF_one in E1.
        rewrite FloatAxioms.abs_spec.
        destruct (Prim2SF x) as [s|s| |s m e]; try discriminate.
        apply SFeqb_finite in E1. destruct E1 as [-> ->].
        unfold SFabs. vm_compute. reflexivity.
      * rewrite abs_square. now destruct (is_infinity (x * x)).
Qed.

End CorrectlyRounded.

(** ** The loop body on records *)

Section CandidateFacts.

Context {libm : Libm}.

Local Open Scope float_scope.

Lemma records_nth points i :
  records points -> i < length points ->
  exists k r, nth_error points i = Some [(k, r)] /\
              point_at points i = [(k, r)] /\ 4 <= length r.
Proof.
  unfold records, point_at. intros H Hi.
  destruct (nth_error points i) as [p|] eqn:E.
  - pose proof (nth_error_In _ _ E) as Hin.
    rewrite forallb_forall in H. specialize (H p Hin).
    rewrite (nth_error_nth _ _ _ E).
    destruct p as [|[k r] [|]]; try discriminate.
    exists k, r. repeat split. now apply Nat.leb_le.
  - apply nth_error_None in E. lia.
Qed.

Lemma records_skipn points k : records points -> records (skipn k points).
Proof.
  unfold records. rewrite !forallb_forall. intros H p Hp.
  apply H. rewrite <- (firstn_skipn k points). apply in_or_app. now right.
Qed.

Lemma row_at {A} (r : list A) (n : nat) (d : A) :
  n < length r -> getitem r n = Ok (nth n r d).
Proof.
  intros H. unfold getitem.
  destruct (nth_error r n) eqn:E.
  - now rewrite (nth_error_nth _ _ _ E).
  - apply nth_error_None in E. lia.
Qed.

Lemma getitem_ok {A} (l : list A) (n : nat) (a : A) :
  nth_error l n = Some a -> getitem l n = Ok a.
Proof. unfold getitem. now intros ->. Qed.

Lemma sum_from_records data :
  records data ->
  forall acc,
    sum_from acc data 1 =
    Ok (fold_left (fun a p => num_add a (ampers p)) data acc).
Proof.
  unfold records. induction data as [|p data IH]; intros H acc; [reflexivity|].
  cbn [forallb] in H. apply andb_prop in H as [Hp H].
  cbn [sum_from fold_left].
  destruct p as [|[k r] [|]]; try discriminate.
  change ((4 <=? length r)%nat = true) in Hp. apply Nat.leb_le in Hp.
  cbn [values map snd getitem nth_error bind].
  rewrite (row_at r 1 0%float) by lia. cbn [bind].
  now rewrite IH.
Qed.

Lemma sum_by_index_records points i :
  records points ->
  sum_by_index (skipn (i + 2) points) 1 = Ok (future_ampers_sum points i).
Proof.
  intros H. unfold sum_by_index, future_ampers_sum.
  now rewrite sum_from_records by now apply records_skipn.
Qed.

Lemma fold_num_add_float data f :
  exists g, fold_left (fun a p => num_add a (ampers p)) data (PyFloat f) = PyFloat g.
Proof.
  revert f. induction data as [|p data IH]; intros f; cbn; eauto.
Qed.

Lemma future_ampers_sum_shape points i :
  is_delta (future_ampers_sum points i).
Proof.
  unfold future_ampers_sum, is_delta.
  destruct (skipn (i + 2) points) as [|p rest]; [now left | right].
  cbn [fold_left]. unfold num_add at 2. apply fold_num_add_float.
Qed.

Lemma float_pow2_cases x :
  float_pow2 x = if pow2_raises x then Raise OverflowError else Ok (square x).
Proof.
  unfold pow2_raises. destruct (float_pow2 x) as [y|e] eqn:E.
  - now rewrite (float_pow2_ok _ _ E).
  - now rewrite (float_pow2_raise _ _ E).
Qed.

(** On records, the loop body does what the case analysis says. *)
Lemma candidate_spec points i :
  records points -> i + 1 < length points ->
  candidate points i = candidate_outcome points i.
Proof.
  intros Hrec Hi.
  destruct (records_nth points i Hrec) as (k & r & E & P & L); [lia|].
  destruct (records_nth points (i + 1) Hrec) as (k' & r' & E' & P' & L'); [lia|].
  unfold candidate, candidate_outcome, expected, delta_formula, guarded,
    amper_power, volt_power, volt_drop, volts, resistance.
  rewrite (sum_by_index_records points i Hrec).
  rewrite P, P'. cbn [row ident].
  rewrite (getitem_ok _ _ _ E), (getitem_ok _ _ _ E'). cbn [bind].
  change (getitem (items [(k, r)]) 0) with (Ok (k, r)).
  change (getitem (values [(k', r')]) 0) with (Ok r').
  cbn [bind].
  rewrite (row_at r 0 0%float), (row_at r 3 0%float), (row_at r' 0 0%float) by lia.
  cbn [bind].
  set (V := nth 0 r 0). set (R := nth 3 r 0). set (V' := nth 0 r' 0).
  set (S := future_ampers_sum points i).
  rewrite float_pow2_cases.
  destruct (pow2_raises (V - V')); [reflexivity|]. cbn [bind].
  unfold float_truediv at 1.
  destruct (R =? 0) eqn:ER; cbn [negb bind].
  - rewrite orb_true_r. reflexivity.
  - rewrite orb_false_r.
    destruct (future_ampers_sum_shape points i) as [HS|[f HS]]; fold S in HS;
      rewrite HS; cbn [num_eq0 bind].
    + reflexivity.
    + destruct (f =? 0); [reflexivity|].
      cbn [num_pow2 to_float]. rewrite float_pow2_cases.
      destruct (pow2_raises f); [reflexivity|]. cbn [bind to_float].
      unfold float_truediv.
      destruct (square f * R =? 0); reflexivity.
Qed.

End CandidateFacts.

(** ** The loop and the state *)

Section LoopFacts.

Context {G : Type} {libm : Libm}.

Lemma for_each_loop_body idx : forall h : heap G,
  for_each idx loop_body h =
  (mk_heap (module_state h) (points_obj h)
     (deltas_obj h ++ fst (collect (points_obj h) idx)),
   raised (snd (collect (points_obj h) idx))).
Proof.
  induction idx as [|i idx IH]; intros [g pts ds].
  - cbn. now rewrite app_nil_r.
  - cbn [for_each collect]. unfold bindM at 1.
    unfold loop_body, bindM, read_points, lift, append_delta.
    cbn [points_obj module_state deltas_obj].
    destruct (candidate pts i) as [d|e].
    + rewrite IH. cbn [points_obj module_state deltas_obj].
      destruct (collect pts idx) as [ds' e']. cbn [fst snd].
      now rewrite <- app_assoc.
    + cbn. now rewrite app_nil_r.
Qed.

(** The call, in one step: the heap it leaves and its outcome. *)
Lemma run_analyze_points_spec (h : heap G) :
  run_analyze_points h =
  let c := collect (points_obj h) (range 1 (length (points_obj h) - 1)) in
  (mk_heap (module_state h) (points_obj h) (fst c),
   match snd c with
   | None => max_by delta (fst c)
   | Some e => Raise e
   end).
Proof.
  destruct h as [g pts ds].
  unfold run_analyze_points, bindM at 1, new_deltas.
  cbn [points_obj module_state deltas_obj].
  unfold bindM at 1, read_points at 1. cbn [points_obj].
  unfold bindM at 1. rewrite for_each_loop_body.
  cbn [points_obj module_state deltas_obj app].
  destruct (collect pts (range 1 (length pts - 1))) as [ds' [e|]]; reflexivity.
Qed.

End LoopFacts.

Section CollectFacts.

Context {libm : Libm}.

Lemma analyze_points_spec points :
analyze_points points =
let c := collect points (range 1 (length points - 1)) in
match snd c with
| None => max_by delta (fst c)
| Some e => Raise e
end.
Proof. unfold analyze_points. now rewrite run_analyze_points_spec. Qed.

(** When every candidate in [idx] is computed, the loop collects them all. *)
Lemma collect_all points (f : nat -> delta_rec) idx :
(forall i, In i idx -> candidate points i = Ok (f i)) ->
collect points idx = (map f idx, None).
Proof.
induction idx as [|i idx IH]; intros H; [reflexivity|].
cbn [collect map]. rewrite (H i) by now left.
rewrite IH; [reflexivity|]. intros j Hj. apply H. now right.
Qed.

(** The first candidate that raises ends the loop with its exception. *)
Lemma collect_raise points idx i e :
In i idx -> candidate points i = Raise e ->
exists e', snd (collect points idx) = Some e'.
Proof.
induction idx as [|j idx IH]; intros Hin Hc; [contradiction|].
cbn [collect]. destruct (candidate points j) as [d|e1] eqn:E.
- destruct Hin as [->|Hin]; [congruence|].
  destruct (IH Hin Hc) as [e' He'].
  destruct (collect points idx) as [ds e2]. cbn in *. eauto.
- cbn. eauto.
Qed.


(** An exception that leaves the loop is the exception of a candidate. *)
Lemma collect_raise_first points idx e :
  snd (collect points idx) = Some e ->
  exists i, In i idx /\ candidate points i = Raise e.
Proof.
  induction idx as [|j idx IH]; [discriminate|].
  cbn [collect]. destruct (candidate points j) as [d|e1] eqn:E.
  - destruct (collect points idx) as [ds e2]. cbn [snd] in *.
    intros H. destruct (IH H) as (i & Hi & Hc). exists i. split; [now right|assumption].
  - cbn [snd]. intros [= <-]. exists j. split; [now left|assumption].
Qed.

End CollectFacts.

(** ** The order of deltas *)

Lemma dkey_int0 : dkey (PyInt 0) = Some (0, 0, 0)%Z.
Proof. vm_compute. reflexivity. Qed.

Lemma num_gt_key x y :
  is_delta x -> is_delta y ->
  (num_gt x y = true <->
   exists a b, dkey y = Some b /\ dkey x = Some a /\ lt3 b a).
Proof.
  intros [->|[f ->]] [->|[g ->]]; unfold num_gt, dkey;
    try (rewrite ltb_key; split; intros (a & b & H1 & H2 & H3); eauto).
  rewrite Z.ltb_irrefl. split; [discriminate|].
  fold (dkey (PyInt 0)). rewrite dkey_int0.
  intros (a & b & [= <-] & [= <-] & H). cbn in H. lia.
Qed.

Lemma num_le_key x y :
  is_delta x -> is_delta y ->
  (num_le x y = true <->
   exists a b, dkey x = Some a /\ dkey y = Some b /\ le3 a b).
Proof.
  intros [->|[f ->]] [->|[g ->]]; unfold num_le, dkey;
    try (rewrite leb_key; reflexivity).
  rewrite Z.leb_refl. split; [intros _|reflexivity].
  fold (dkey (PyInt 0)). rewrite dkey_int0.
  eexists _, _. repeat split. cbn. lia.
Qed.

Ltac triples :=
  repeat match goal with
    | a : (Z * Z * Z)%type |- _ => destruct a as [[? ?] ?]
    end;
  unfold lt3, le3 in *; cbn in *.

Ltac keys :=
  repeat match goal with
    | H : num_gt _ _ = true |- _ =>
        apply num_gt_key in H; [destruct H as (? & ? & ? & ? & ?)|assumption..]
    | H : num_le _ _ = true |- _ =>
        apply num_le_key in H; [destruct H as (? & ? & ? & ? & ?)|assumption..]
    end;
  repeat match goal with
    | H : ?k = Some _, H' : ?k = Some _ |- _ => rewrite H in H'; injection H' as <-
    end.

Section DeltaOrder.

Variables x y z : num.
Hypothesis (Dx : is_delta x) (Dy : is_delta y) (Dz : is_delta z).

Lemma num_gt_irrefl : num_gt x x = false.
Proof.
  destruct (num_gt x x) eqn:E; [|reflexivity]. keys. triples. lia.
Qed.

Lemma num_gt_trans :
  num_gt x y = true -> num_gt y z = true -> num_gt x z = true.
Proof.
  intros H1 H2. keys. apply num_gt_key; try assumption.
  eexists _, _. repeat split; try eassumption. triples. lia.
Qed.

Lemma num_gt_asym : num_gt x y = true -> num_gt y x = false.
Proof.
  intros H1. destruct (num_gt y x) eqn:H2; [|reflexivity].
  keys. triples. lia.
Qed.

Lemma num_le_not_gt : num_le x y = true -> num_gt x y = false.
Proof.
  intros H1. destruct (num_gt x y) eqn:H2; [|reflexivity].
  keys. triples. lia.
Qed.

Lemma num_le_trans :
  num_le x y = true -> num_le y z = true -> num_le x z = true.
Proof.
  intros H1 H2. keys. apply num_le_key; try assumption.
  eexists _, _. repeat split; try eassumption. triples. lia.
Qed.

(** Two deltas below a common bound are comparable. *)
Lemma num_le_total :
  num_le x z = true -> num_le y z = true ->
  num_le x y = false -> num_gt x y = true.
Proof.
  intros H1 H2 H3. keys.
  apply num_gt_key; try assumption.
  eexists _, _. repeat split; try eassumption.
  destruct (num_le x y) eqn:E; [discriminate|].
  assert (N : ~ exists a b, dkey x = Some a /\ dkey y = Some b /\ le3 a b).
  { intros C. apply num_le_key in C; try assumption. congruence. }
  triples.
  match goal with |- ?P => destruct (Z.lt_ge_cases 0 1); [|lia]; assert (P \/ ~ P) as [|Hn] by lia; [assumption|] end.
  exfalso. apply N. eexists _, _. repeat split; try eassumption. cbn. lia.
Qed.

Lemma num_gt_le_trans :
  num_gt y x = true -> num_le y z = true -> num_le z x = false.
Proof.
  intros H1 H2. destruct (num_le z x) eqn:H3; [|reflexivity].
  keys. triples. lia.
Qed.

End DeltaOrder.


(** ** The scan of [max] *)

Lemma scan_cons x xs m :
  scan (x :: xs) m = scan xs (if num_gt (delta x) (delta m) then x else m).
Proof. reflexivity. Qed.

Lemma scan_in xs : forall m, In (scan xs m) (m :: xs).
Proof.
  induction xs as [|x xs IH]; intros m; [now left|].
  rewrite scan_cons.
  destruct (IH (if num_gt (delta x) (delta m) then x else m)) as [H|H].
  - rewrite <- H. destruct (num_gt (delta x) (delta m)); [right; now left | now left].
  - right. now right.
Qed.

(** The running maximum only grows. *)
Lemma scan_mono xs : forall m,
  deltas_ok (m :: xs) ->
  scan xs m = m \/ num_gt (delta (scan xs m)) (delta m) = true.
Proof.
  induction xs as [|x xs IH]; intros m D; [now left|].
  inversion D as [|? ? Dm D']; subst. inversion D' as [|? ? Dx Dxs]; subst.
  rewrite scan_cons. destruct (num_gt (delta x) (delta m)) eqn:E.
  - right. destruct (IH x D') as [->|H]; [assumption|].
    apply num_gt_trans with (y := delta x); try assumption.
    pose proof (scan_in xs x) as Hin.
    now apply (proj1 (Forall_forall _ _) D').
  - apply IH. now constructor.
Qed.

(** No element is greater than the result of the scan. *)
Lemma scan_no_greater xs : forall m,
  deltas_ok (m :: xs) ->
  forall y, In y (m :: xs) -> num_gt (delta y) (delta (scan xs m)) = false.
Proof.
  induction xs as [|x xs IH]; intros m D y Hy.
  - destruct Hy as [<-|[]]. inversion D; subst. now apply num_gt_irrefl.
  - inversion D as [|? ? Dm D']; subst. inversion D' as [|? ? Dx Dxs]; subst.
    rewrite scan_cons.
    set (m' := if num_gt (delta x) (delta m) then x else m).
    assert (Dm' : deltas_ok (m' :: xs)).
    { constructor; [|assumption]. unfold m'. now destruct (num_gt _ _). }
    assert (Dy : is_delta (delta y)) by now apply (proj1 (Forall_forall _ _) D).
    assert (Dr : is_delta (delta (scan xs m'))).
    { apply (proj1 (Forall_forall _ _) Dm'). apply scan_in. }
    (* the element the first step drops is not greater than the one it keeps *)
    assert (K : forall w, w = m \/ w = x -> num_gt (delta w) (delta m') = false).
    { unfold m'. intros w [->| ->]; destruct (num_gt (delta x) (delta m)) eqn:E;
        try assumption; try now apply num_gt_irrefl.
      now apply num_gt_asym. }
    assert (L : forall w, In w (m' :: xs) \/ w = m \/ w = x ->
                          is_delta (delta w) ->
                          num_gt (delta w) (delta (scan xs m')) = false).
    { intros w [Hw|Hw] Dw; [now apply IH|].
      destruct (scan_mono xs m' Dm') as [->|H]; [now apply K|].
      destruct (num_gt (delta w) (delta (scan xs m'))) eqn:E; [|reflexivity].
      assert (Dm'' : is_delta (delta m')) by now inversion Dm'.
      rewrite <- (K w Hw). symmetry.
      now apply num_gt_trans with (y := delta (scan xs m')). }
    apply L; [|assumption].
    destruct Hy as [<-|[<-|Hy]]; [right; now left | right; now right |].
    left. now right.
Qed.

(** A running maximum that nothing exceeds is kept. *)
Lemma scan_keep xs : forall m,
  (forall y, In y xs -> num_gt (delta y) (delta m) = false) ->
  scan xs m = m.
Proof.
  induction xs as [|x xs IH]; intros m H; [reflexivity|].
  rewrite scan_cons, (H x) by now left.
  apply IH. intros y Hy. apply H. now right.
Qed.

(** The scan returns the first element that is at least every element. *)
Lemma scan_first_max d0 xs : forall m i,
  deltas_ok (m :: xs) ->
  i < length (m :: xs) ->
  (forall y, In y (m :: xs) ->
             num_le (delta y) (delta (nth i (m :: xs) d0)) = true) ->
  (forall j, j < i ->
             num_le (delta (nth i (m :: xs) d0)) (delta (nth j (m :: xs) d0)) = false) ->
  scan xs m = nth i (m :: xs) d0.
Proof.
  induction xs as [|x xs IH]; intros m i D Hi Hmax Hfirst.
  - cbn in Hi. assert (i = 0) as -> by lia. reflexivity.
  - inversion D as [|? ? Dm D']; subst. inversion D' as [|? ? Dx Dxs]; subst.
    destruct i as [|i].
    + cbn [nth] in *. apply scan_keep. intros y Hy.
      apply num_le_not_gt; try assumption.
      * now apply (proj1 (Forall_forall _ _) D').
      * apply Hmax. now right.
    + rewrite scan_cons. cbn [nth] in Hmax, Hfirst |- *.
      set (M := nth i (x :: xs) d0) in *.
      assert (DM : is_delta (delta M)).
      { apply (proj1 (Forall_forall _ _) D'). apply nth_In. cbn in *. lia. }
      assert (Hm : num_le (delta m) (delta M) = true) by (apply Hmax; now left).
      assert (Hx : num_le (delta x) (delta M) = true) by (apply Hmax; right; now left).
      assert (Hm' : num_le (delta M) (delta m) = false) by (apply (Hfirst 0); lia).
      destruct i as [|i].
      * (* the maximum is first met at [x], which replaces [m] *)
        unfold M in *. cbn [nth] in *.
        assert (E : num_gt (delta x) (delta m) = true).
        { now apply num_le_total with (z := delta x). }
        rewrite E. apply scan_keep. intros y Hy.
        apply num_le_not_gt; try assumption.
        -- now apply (proj1 (Forall_forall _ _) Dxs).
        -- apply Hmax. right. now right.
      * (* neither [m] nor [x] attains the maximum *)
        set (m' := if num_gt (delta x) (delta m) then x else m).
        assert (Hx' : num_le (delta M) (delta x) = false) by (apply (Hfirst 1); lia).
        apply (IH m' (S i)).
        -- constructor; [|assumption]. unfold m'. now destruct (num_gt _ _).
        -- cbn in *. lia.
        -- intros y [<-|Hy].
           ++ unfold m'. now destruct (num_gt _ _).
           ++ apply Hmax. right. now right.
        -- intros [|j] Hj.
           ++ cbn [nth]. unfold m'. now destruct (num_gt _ _).
           ++ apply (Hfirst (S (S j))). lia.
Qed.

(** ** Candidates *)

Section Candidates.

Context {libm : Libm}.

Lemma bind_ok_inv {A B : Type} (m : result A) (k : A -> result B) b :
  bind m k = Ok b -> exists a, m = Ok a /\ k a = Ok b.
Proof. destruct m as [a|e]; [eauto | discriminate]. Qed.

(** Whatever the records look like, a computed delta is the int [0] or a
    float. *)
Lemma candidate_delta_shape points i d :
  candidate points i = Ok d -> is_delta (delta d).
Proof.
  unfold candidate, is_delta. intros H.
  do 2 apply bind_ok_inv in H as (? & _ & H).
  apply bind_ok_inv in H as ([home_id current_data] & _ & H).
  do 7 apply bind_ok_inv in H as (? & _ & H).
  apply bind_ok_inv in H as (dl & Hd & [= <-]). cbn [delta].
  destruct (_ || _).
  - injection Hd as <-. now left.
  - do 2 apply bind_ok_inv in Hd as (? & _ & Hd).
    injection Hd as <-. eauto.
Qed.

Lemma expected_shape points i : is_delta (delta (expected points i)).
Proof.
  unfold expected, delta_formula, is_delta. cbn [delta].
  destruct (guarded points i); eauto.
Qed.

(** On records, a candidate whose arithmetic is defined yields the pair of
    the formula; any other candidate raises. *)
Lemma candidate_defined points i :
  records points -> i + 1 < length points ->
  arith_defined points i = true ->
  candidate points i = Ok (expected points i).
Proof.
  intros Hrec Hi. rewrite (candidate_spec points i Hrec Hi).
  unfold arith_defined, candidate_outcome.
  destruct (pow2_raises (volt_drop points i)); [discriminate|].
  destruct (guarded points i); [reflexivity|].
  destruct (pow2_raises (to_float (future_ampers_sum points i))); [discriminate|].
  destruct (amper_power points i =? 0)%float; [discriminate|reflexivity].
Qed.

Lemma candidate_undefined points i :
  records points -> i + 1 < length points ->
  arith_defined points i = false ->
  candidate points i = Raise OverflowError \/
  candidate points i = Raise ZeroDivisionError.
Proof.
  intros Hrec Hi. rewrite (candidate_spec points i Hrec Hi).
  unfold arith_defined, candidate_outcome.
  destruct (pow2_raises (volt_drop points i)); [now left|].
  destruct (guarded points i); [discriminate|].
  destruct (pow2_raises (to_float (future_ampers_sum points i))); [now left|].
  destruct (amper_power points i =? 0)%float; [now right|discriminate].
Qed.

Lemma range_interior n i : In i (range 1 (n - 1)) <-> 1 <= i <= n - 2.
Proof. unfold range. rewrite in_seq. lia. Qed.

(** With every candidate computed, the call returns the scan of the
    candidates in index order. *)
Lemma analyze_points_scan points (f : nat -> delta_rec) :
  3 <= length points ->
  (forall j, 1 <= j <= length points - 2 -> candidate points j = Ok (f j)) ->
  analyze_points points =
  Ok (scan (map f (seq 2 (length points - 3))) (f 1)).
Proof.
  intros Hn Hc. rewrite analyze_points_spec.
  rewrite (collect_all points f).
  - cbn [fst snd]. unfold range.
    replace (length points - 1 - 1) with (S (length points - 3)) by lia.
    reflexivity.
  - intros i Hi. apply Hc. now apply range_interior.
Qed.

Lemma nth_candidates (f : nat -> delta_rec) n k d0 :
  k < S n -> nth k (f 1 :: map f (seq 2 n)) d0 = f (S k).
Proof.
  intros Hk. change (f 1 :: map f (seq 2 n)) with (map f (seq 1 (S n))).
  rewrite (nth_indep _ d0 (f 0)) by now rewrite length_map, length_seq.
  rewrite map_nth, seq_nth by assumption. reflexivity.
Qed.

Lemma in_candidates (f : nat -> delta_rec) n y :
  In y (f 1 :: map f (seq 2 n)) <-> exists j, 1 <= j <= n + 1 /\ y = f j.
Proof.
  change (f 1 :: map f (seq 2 n)) with (map f (seq 1 (S n))).
  rewrite in_map_iff. split.
  - intros (j & <- & Hj). apply in_seq in Hj. exists j. split; [lia|reflexivity].
  - intros (j & Hj & ->). exists j. split; [reflexivity|]. apply in_seq. lia.
Qed.

Lemma candidates_ok points (f : nat -> delta_rec) n :
  (forall j, 1 <= j <= n + 1 -> candidate points j = Ok (f j)) ->
  deltas_ok (f 1 :: map f (seq 2 n)).
Proof.
  intros Hc. apply Forall_forall. intros y Hy.
  apply in_candidates in Hy as (j & Hj & ->).
  apply (candidate_delta_shape points j). now apply Hc.
Qed.

End Candidates.

(** ** Sign of the ratio and NaN *)

Section RatioFacts.

Local Open Scope float_scope.

Lemma fkey_none x : fkey x = None <-> is_nan x = true.
Proof.
  unfold fkey. rewrite is_nan_spec.
  destruct (Prim2SF x) as [[]|[]| |[] m e]; cbn; split; congruence.
Qed.

(** [(A / r) / (B * r)], with [A] and [B] NaN or of positive sign, is NaN
    or of positive sign, whatever the sign of [r]. *)
Lemma ratio_sign A r B :
  sgn_ok (Prim2SF A) false -> sgn_ok (Prim2SF B) false ->
  sgn_ok (Prim2SF (A / r / (B * r))) false.
Proof.
  intros HA HB.
  rewrite !FloatAxioms.div_spec, !FloatAxioms.mul_spec.
  destruct (sgn_ok_any (Prim2SF r)) as [s Hr].
  replace false with (xorb (xorb false s) (xorb false s)) by now destruct s.
  apply SFdiv_sign.
  - apply SFdiv_sign; assumption.
  - apply SFmul_sign; assumption.
Qed.

Lemma ratio_not_negative A r B :
  sgn_ok (Prim2SF A) false -> sgn_ok (Prim2SF B) false ->
  (A / r / (B * r) <? 0) = false.
Proof.
  intros HA HB. rewrite FloatAxioms.ltb_spec, Prim2SF_zero.
  now apply sgn_ok_not_neg, ratio_sign.
Qed.

Lemma ratio_nan_or_nonneg A r B :
  sgn_ok (Prim2SF A) false -> sgn_ok (Prim2SF B) false ->
  is_nan (A / r / (B * r)) = true \/
  (0 <=? A / r / (B * r)) = true.
Proof.
  intros HA HB. rewrite is_nan_spec, FloatAxioms.leb_spec, Prim2SF_zero.
  destruct (sgn_ok_nonneg _ (ratio_sign A r B HA HB)) as [-> | H]; auto.
Qed.

End RatioFacts.

(** A delta that is not greater than another is at most the other, unless
    one of them is NaN. *)
Lemma num_not_gt_le x y :
  is_delta x -> is_delta y -> num_gt x y = false ->
  num_le x y = true \/
  is_nan (to_float x) = true \/ is_nan (to_float y) = true.
Proof.
  intros Dx Dy H.
  destruct (dkey x) as [a|] eqn:Ex; [|right; left; now apply fkey_none].
  destruct (dkey y) as [b|] eqn:Ey; [|right; right; now apply fkey_none].
  left. apply num_le_key; try assumption.
  exists a, b. repeat split; try assumption.
  assert (N : ~ lt3 b a).
  { intros C. assert (num_gt x y = true); [|congruence].
    apply num_gt_key; try assumption. eauto. }
  triples. lia.
Qed.

Lemma interior_next (points : list point) i :
  1 <= i <= length points - 2 -> i + 1 < length points.
Proof. lia. Qed.

(** ** The claims *)

(** *** C1: the result is a candidate of maximal delta *)

(** C1, as stated, fails: with three or more records the call can raise
    instead of returning, [OverflowError] when a squared voltage drop
    overflows, [ZeroDivisionError] when the square of a non-zero current sum
    rounds to zero; and it can return a NaN delta, which is not at least the
    delta of the other candidates. *)
Lemma analyze_points_can_raise :
  (3 <= length series_overflow /\ records series_overflow /\
   analyze_points series_overflow = Raise OverflowError) /\
  (3 <= length series_tiny_current /\ records series_tiny_current /\
   num_eq0 (future_ampers_sum series_tiny_current 1) = false /\
   analyze_points series_tiny_current = Raise ZeroDivisionError) /\
  (3 <= length series_both_infinite /\ records series_both_infinite /\
   analyze_points series_both_infinite =
     Ok {| delta := PyFloat nan; home_id := 2 |} /\
   candidate series_both_infinite 2 = Ok {| delta := PyInt 0; home_id := 3 |} /\
   num_le (PyInt 0) (PyFloat nan) = false).
Proof.
  repeat split; try (cbn; lia); vm_compute; reflexivity.
Qed.

(** C1 (amended): whatever the platform's [pow], for at least three records
    whose candidates all have defined arithmetic, [analyze_points] returns
    the pair of an interior index [i]: the identifier of record [i] and the
    delta of the formula of section 4.1 at [i], its squares being those of
    [** 2]; no candidate has a greater delta, and every candidate's delta is
    at most the returned one unless one of the two is NaN. *)
Theorem analyze_points_returns_maximum {libm : Libm} points :
  3 <= length points -> records points ->
  forallb (arith_defined points) (range 1 (length points - 1)) = true ->
  exists i,
    1 <= i <= length points - 2 /\
    analyze_points points =
      Ok {| delta := delta_formula points i;
            home_id := ident (point_at points i) |} /\
    forall j, 1 <= j <= length points - 2 ->
      num_gt (delta_formula points j) (delta_formula points i) = false /\
      (num_le (delta_formula points j) (delta_formula points i) = true \/
       is_nan (to_float (delta_formula points j)) = true \/
       is_nan (to_float (delta_formula points i)) = true).
Proof.
  intros Hn Hrec Hdef.
  assert (Hc : forall j, 1 <= j <= length points - 2 ->
                         candidate points j = Ok (expected points j)).
  { intros j Hj. apply candidate_defined; [assumption | lia |].
    rewrite forallb_forall in Hdef. apply Hdef. now apply range_interior. }
  rewrite (analyze_points_scan points (expected points) Hn Hc).
  set (xs := map (expected points) (seq 2 (length points - 3))).
  assert (D : deltas_ok (expected points 1 :: xs)).
  { apply (candidates_ok points). intros j Hj. apply Hc. lia. }
  destruct (proj1 (in_candidates _ _ _) (scan_in xs (expected points 1)))
    as (i & Hi & Ei).
  exists i. split; [lia|]. split; [now rewrite Ei|].
  intros j Hj.
  assert (G : num_gt (delta (expected points j))
                (delta (scan xs (expected points 1))) = false).
  { apply scan_no_greater; [assumption|].
    apply in_candidates. exists j. split; [lia|reflexivity]. }
  rewrite Ei in G. cbn [delta expected] in G. split; [assumption|].
  apply num_not_gt_le; try assumption; apply expected_shape.
Qed.

Lemma analyze_points_returns_maximum_witness :
  3 <= length data /\ records data /\
  forallb (arith_defined data) (range 1 (length data - 1)) = true /\
  exists i,
    1 <= i <= length data - 2 /\
    analyze_points data =
      Ok {| delta := delta_formula data i; home_id := ident (point_at data i) |} /\
    forall j, 1 <= j <= length data - 2 ->
      num_gt (delta_formula data j) (delta_formula data i) = false /\
      (num_le (delta_formula data j) (delta_formula data i) = true \/
       is_nan (to_float (delta_formula data j)) = true \/
       is_nan (to_float (delta_formula data i)) = true).
Proof.
  assert (H1 : 3 <= length data) by (cbn; lia).
  assert (H2 : records data) by (vm_compute; reflexivity).
  assert (H3 : forallb (arith_defined data) (range 1 (length data - 1)) = true)
    by (vm_compute; reflexivity).
  split; [exact H1|]. split; [exact H2|]. split; [exact H3|].
  exact (analyze_points_returns_maximum data H1 H2 H3).
Defined.

(** Otherwise the call raises: the exception of the first candidate whose
    arithmetic is not defined. *)
Lemma analyze_points_raises {libm : Libm} points :
  3 <= length points -> records points ->
  forallb (arith_defined points) (range 1 (length points - 1)) = false ->
  analyze_points points = Raise OverflowError \/
  analyze_points points = Raise ZeroDivisionError.
Proof.
  intros Hn Hrec Hdef. rewrite analyze_points_spec. cbv zeta.
  assert (Hex : exists i, In i (range 1 (length points - 1)) /\
                          arith_defined points i = false).
  { destruct (existsb (fun i => negb (arith_defined points i))
                (range 1 (length points - 1))) eqn:E.
    - apply existsb_exists in E as (i & Hi & Hb).
      exists i. split; [assumption|]. now destruct (arith_defined points i).
    - exfalso.
      assert (forallb (arith_defined points) (range 1 (length points - 1)) = true);
        [|congruence].
      apply forallb_forall. intros i Hi.
      destruct (arith_defined points i) eqn:Ea; [reflexivity|].
      assert (existsb (fun i => negb (arith_defined points i))
                (range 1 (length points - 1)) = true); [|congruence].
      apply existsb_exists. exists i. split; [assumption|]. now rewrite Ea. }
  destruct Hex as (i & Hi & Ha).
  assert (Hi' : i + 1 < length points) by (apply range_interior in Hi; lia).
  assert (exists e, candidate points i = Raise e) as [e He].
  { destruct (candidate_undefined points i Hrec Hi' Ha) as [H|H]; eauto. }
  destruct (collect_raise points _ i e Hi He) as [e' He'].
  rewrite He'.
  destruct (collect_raise_first points _ e' He') as (j & Hj & Hc).
  assert (Hj' : j + 1 < length points) by (apply range_interior in Hj; lia).
  rewrite (candidate_spec points j Hrec Hj') in Hc.
  unfold candidate_outcome in Hc.
  repeat match type of Hc with
    | context [if ?b then _ else _] => destruct b
    end; try discriminate Hc; injection Hc as Hc; rewrite <- Hc; auto.
Qed.

(** The sample series of the script selects home 16. *)
Example analyze_points_data :
  analyze_points data = Ok {| delta := PyFloat 2.194787379972917; home_id := 16 |}.
Proof. vm_compute. reflexivity. Qed.

(** The rounding of [pow] reaches the result: on the same records the
    delta returned is [7.612081] with the correctly rounded libm and
    [7.612080999999999] with one that is a unit in the last place below it
    at 2.759; the theorems on the formula hold of both. *)
Example pow_rounding_reaches_the_result :
  analyze_points (libm:=correctly_rounded) series_ulp
    = Ok {| delta := PyFloat 7.612081; home_id := 2 |} /\
  analyze_points (libm:=one_ulp_off) series_ulp
    = Ok {| delta := PyFloat 7.612080999999999; home_id := 2 |} /\
  (7.612080999999999 <? 7.612081)%float = true /\
  forallb (arith_defined (libm:=one_ulp_off) series_ulp)
    (range 1 (length series_ulp - 1)) = true /\
  pow2_positive (libm:=one_ulp_off).
Proof.
  split; [vm_compute; reflexivity|]. split; [vm_compute; reflexivity|].
  split; [vm_compute; reflexivity|]. split; [vm_compute; reflexivity|].
  intros a Ha. cbn [libm_pow2 one_ulp_off].
  destruct (a =? 2.759)%float; cbn [fst]; [vm_compute; reflexivity|].
  exact (correctly_rounded_positive a Ha).
Qed.

(** *** C2: fewer than three records *)

(** C2, as stated, fails: with fewer than three records nothing guards the
    call; the loop runs zero times and the failure is the [ValueError] of
    [max] on the empty list [deltas]. *)
Lemma too_short_fails_in_max :
  length (firstn 2 data) < 3 /\
  collect (firstn 2 data) (range 1 (length (firstn 2 data) - 1)) = ([], None) /\
  analyze_points (firstn 2 data) = max_by delta [] /\
  max_by delta ([] : list delta_rec) = Raise ValueError.
Proof. repeat split; try reflexivity. cbn. lia. Qed.

(** C2 (amended): for fewer than three records [analyze_points] fails, and
    the failure is the [ValueError] that [max] raises on the empty list of
    candidates. *)
Theorem analyze_points_too_short {libm : Libm} points :
  length points < 3 ->
  analyze_points points = max_by delta [] /\
  analyze_points points = Raise ValueError.
Proof.
  intros Hn. rewrite analyze_points_spec. unfold range.
  replace (length points - 1 - 1) with 0 by lia. cbn. auto.
Qed.

Lemma analyze_points_too_short_witness :
  length (firstn 2 data) < 3 /\
  analyze_points (firstn 2 data) = max_by delta [] /\
  analyze_points (firstn 2 data) = Raise ValueError.
Proof.
  assert (H : length (firstn 2 data) < 3) by (cbn; lia).
  split; [assumption|]. apply (analyze_points_too_short (firstn 2 data) H).
Defined.

(** *** C3: the guard *)

(** C3, as stated, fails: the voltage drop is squared before the guard is
    looked at, so a candidate of resistance zero still raises
    [OverflowError] when that square overflows. *)
Lemma guarded_candidate_can_raise :
  records series_zero_resistance /\
  (resistance (point_at series_zero_resistance 1) =? 0)%float = true /\
  guarded series_zero_resistance 1 = true /\
  candidate series_zero_resistance 1 = Raise OverflowError.
Proof. repeat split; vm_compute; reflexivity. Qed.

(** C3 (amended): for a candidate of a sequence of records whose resistance
    is zero or whose future current sum is zero, the delta is exactly the
    int [0] and nothing is raised, provided the square of the voltage drop
    does not overflow; when it does, the candidate raises [OverflowError]
    whatever the guard says. *)
Theorem guarded_candidate_delta_zero {libm : Libm} points i :
  records points -> 1 <= i <= length points - 2 ->
  (resistance (point_at points i) =? 0)%float = true \/
  num_eq0 (future_ampers_sum points i) = true ->
  candidate points i =
    if pow2_raises (volt_drop points i) then Raise OverflowError
    else Ok {| delta := PyInt 0; home_id := ident (point_at points i) |}.
Proof.
  intros Hrec Hi Hg.
  rewrite (candidate_spec points i Hrec (interior_next points i Hi)).
  unfold candidate_outcome, expected, delta_formula.
  assert (E : guarded points i = true).
  { unfold guarded. destruct Hg as [-> | ->]; [apply orb_true_r | reflexivity]. }
  now rewrite E.
Qed.

Lemma guarded_candidate_delta_zero_witness :
  records data /\ 1 <= 17 <= length data - 2 /\
  ((resistance (point_at data 17) =? 0)%float = true \/
   num_eq0 (future_ampers_sum data 17) = true) /\
  candidate data 17 = Ok {| delta := PyInt 0; home_id := 18 |}.
Proof.
  assert (H1 : records data) by (vm_compute; reflexivity).
  assert (H2 : 1 <= 17 <= length data - 2) by (cbn; lia).
  assert (H3 : (resistance (point_at data 17) =? 0)%float = true \/
               num_eq0 (future_ampers_sum data 17) = true)
    by (right; vm_compute; reflexivity).
  split; [exact H1|]. split; [exact H2|]. split; [exact H3|].
  exact (guarded_candidate_delta_zero data 17 H1 H2 H3).
Defined.

(** *** C4: ties *)

(** C4, as stated, fails: two candidates can attain the maximal delta of
    the formula and the call still return nothing; here candidates 1 and 2
    both have the delta 1, the greatest there is, and the call raises
    [OverflowError] at candidate 3. *)
Lemma tied_maximum_can_raise :
  3 <= length series_tie_raise /\ records series_tie_raise /\
  candidate series_tie_raise 1 = Ok {| delta := PyFloat 1; home_id := 2 |} /\
  candidate series_tie_raise 2 = Ok {| delta := PyFloat 1; home_id := 3 |} /\
  (forall j, 1 <= j <= length series_tie_raise - 2 ->
     num_le (delta_formula series_tie_raise j)
            (delta_formula series_tie_raise 1) = true) /\
  candidate series_tie_raise 3 = Raise OverflowError /\
  analyze_points series_tie_raise = Raise OverflowError.
Proof.
  split; [cbn; lia|]. split; [vm_compute; reflexivity|].
  split; [vm_compute; reflexivity|]. split; [vm_compute; reflexivity|].
  split; [|split; vm_compute; reflexivity].
  intros j Hj. cbn in Hj.
  assert (j = 1 \/ j = 2 \/ j = 3) as [-> | [-> | ->]] by lia;
    vm_compute; reflexivity.
Qed.

(** C4 (amended): when every candidate has a delta and index [i] is the
    first one whose delta is at least every candidate's delta,
    [analyze_points] returns the pair of candidate [i]; with several
    candidates at the maximum this is the first of them in ascending index
    order. *)
Theorem max_returns_first_maximum {libm : Libm} points (f : nat -> delta_rec) i :
  3 <= length points ->
  (forall j, 1 <= j <= length points - 2 -> candidate points j = Ok (f j)) ->
  1 <= i <= length points - 2 ->
  (forall j, 1 <= j <= length points - 2 ->
             num_le (delta (f j)) (delta (f i)) = true) ->
  (forall j, 1 <= j < i -> num_le (delta (f i)) (delta (f j)) = false) ->
  analyze_points points = Ok (f i).
Proof.
  intros Hn Hc Hi Hmax Hfirst.
  rewrite (analyze_points_scan points f Hn Hc). f_equal.
  set (n := length points - 3).
  assert (D : deltas_ok (f 1 :: map f (seq 2 n))).
  { apply (candidates_ok points). intros j Hj. apply Hc. lia. }
  assert (Ei : nth (i - 1) (f 1 :: map f (seq 2 n)) (f 0) = f i).
  { rewrite nth_candidates by lia. f_equal. lia. }
  rewrite <- Ei. apply scan_first_max.
  - assumption.
  - cbn [length]. rewrite length_map, length_seq. lia.
  - intros y Hy. apply in_candidates in Hy as (j & Hj & ->).
    rewrite Ei. apply Hmax. lia.
  - intros j Hj. rewrite Ei, nth_candidates by lia. apply Hfirst. lia.
Qed.

Lemma max_returns_first_maximum_witness :
  delta (expected series_tie 2) = delta (expected series_tie 1) /\
  analyze_points series_tie = Ok {| delta := PyFloat 1; home_id := 2 |}.
Proof.
  split; [vm_compute; reflexivity|].
  assert (H1 : 3 <= length series_tie) by (cbn; lia).
  assert (H2 : forall j, 1 <= j <= length series_tie - 2 ->
                         candidate series_tie j = Ok (expected series_tie j)).
  { intros j Hj. cbn in Hj.
    assert (j = 1 \/ j = 2 \/ j = 3) as [-> | [-> | ->]] by lia;
      vm_compute; reflexivity. }
  assert (H3 : 1 <= 1 <= length series_tie - 2) by (cbn; lia).
  assert (H4 : forall j, 1 <= j <= length series_tie - 2 ->
                 num_le (delta (expected series_tie j))
                        (delta (expected series_tie 1)) = true).
  { intros j Hj. cbn in Hj.
    assert (j = 1 \/ j = 2 \/ j = 3) as [-> | [-> | ->]] by lia;
      vm_compute; reflexivity. }
  assert (H5 : forall j, 1 <= j < 1 ->
                 num_le (delta (expected series_tie 1))
                        (delta (expected series_tie j)) = false)
    by (intros j Hj; lia).
  exact (max_returns_first_maximum series_tie (expected series_tie) 1
           H1 H2 H3 H4 H5).
Defined.

(** *** C5: exactly three records *)

(** C5, as stated, fails: three records do not always make the call return;
    when the square of the single candidate's voltage drop overflows, the
    call raises. *)
Lemma three_records_can_raise :
  length series_three_huge = 3 /\ records series_three_huge /\
  analyze_points series_three_huge = Raise OverflowError.
Proof. repeat split; vm_compute; reflexivity. Qed.

(** C5 (amended): for exactly three records the only candidate index is 1
    and the outcome of [analyze_points] is the outcome of that candidate: its
    (identifier, delta) pair, whatever the comparison of deltas, unless the
    square of its voltage drop overflows, in which case the call raises
    [OverflowError]. *)
Theorem three_records_single_candidate {libm : Libm} points :
  length points = 3 -> records points ->
  range 1 (length points - 1) = [1] /\
  analyze_points points = candidate points 1 /\
  analyze_points points =
    if pow2_raises (volt_drop points 1) then Raise OverflowError
    else Ok (expected points 1).
Proof.
  intros Hn Hrec.
  assert (Hr : range 1 (length points - 1) = [1]) by now rewrite Hn.
  assert (Ha : analyze_points points = candidate points 1).
  { rewrite analyze_points_spec, Hr. cbn [collect].
    destruct (candidate points 1); reflexivity. }
  repeat split; try assumption.
  rewrite Ha, (candidate_spec points 1 Hrec) by lia.
  unfold candidate_outcome.
  assert (E : guarded points 1 = true).
  { unfold guarded, future_ampers_sum.
    rewrite skipn_all2 by (rewrite Hn; cbn; lia). reflexivity. }
  now rewrite E.
Qed.

Lemma three_records_single_candidate_witness :
  length (firstn 3 data) = 3 /\ records (firstn 3 data) /\
  analyze_points (firstn 3 data) = Ok {| delta := PyInt 0; home_id := 2 |}.
Proof.
  assert (H1 : length (firstn 3 data) = 3) by reflexivity.
  assert (H2 : records (firstn 3 data)) by (vm_compute; reflexivity).
  split; [exact H1|]. split; [exact H2|].
  exact (proj2 (proj2 (three_records_single_candidate (firstn 3 data) H1 H2))).
Defined.

(** *** C6: sign of the delta *)

(** C6, as stated, fails: with finite measurements, a finite non-zero
    resistance and a non-zero current sum, both powers can overflow to
    infinity; their ratio is NaN, which is not at least zero, and it is even
    the delta that the call returns. *)
Lemma delta_can_be_nan :
  records series_both_infinite /\
  forallb (fun p => forallb is_finite (row p)) series_both_infinite = true /\
  forallb (fun p => negb (resistance p =? 0)%float) series_both_infinite = true /\
  forallb (fun p => negb (ampers p =? 0)%float) series_both_infinite = true /\
  num_eq0 (future_ampers_sum series_both_infinite 1) = false /\
  candidate series_both_infinite 1 = Ok {| delta := PyFloat nan; home_id := 2 |} /\
  (0 <=? nan)%float = false /\
  analyze_points series_both_infinite = Ok {| delta := PyFloat nan; home_id := 2 |}.
Proof. repeat split; vm_compute; reflexivity. Qed.

(** C6 (amended): with a [pow] that returns nothing negative, a candidate
    of a sequence of records whose arithmetic is defined has the delta of
    the formula: the int [0] when guarded, otherwise the raw float ratio
    [volt_power / amper_power] of the squares of [** 2], which is never
    negative: it is at least zero or it is NaN. *)
Theorem candidate_delta_never_negative {libm : Libm} points i :
  pow2_positive ->
  records points -> 1 <= i <= length points - 2 ->
  arith_defined points i = true ->
  candidate points i = Ok (expected points i) /\
  (guarded points i = true -> delta_formula points i = PyInt 0) /\
  (guarded points i = false ->
   exists q,
     delta_formula points i = PyFloat q /\
     q = (to_float (volt_power points i) / amper_power points i)%float /\
     (q <? 0)%float = false /\
     (is_nan q = true \/ (0 <=? q)%float = true)).
Proof.
  intros P Hrec Hi Hdef.
  split; [apply candidate_defined; auto using interior_next|].
  unfold delta_formula. split; intros Hg; rewrite Hg; [reflexivity|].
  eexists. split; [reflexivity|]. split; [reflexivity|].
  unfold guarded in Hg. apply orb_false_elim in Hg as [_ HR].
  unfold volt_power, amper_power. rewrite HR. cbn [to_float].
  split; [apply ratio_not_negative | apply ratio_nan_or_nonneg];
    now apply square_sign.
Qed.

Lemma candidate_delta_never_negative_witness :
  records data /\ 1 <= 15 <= length data - 2 /\
  arith_defined data 15 = true /\
  candidate data 15 = Ok {| delta := PyFloat 2.194787379972917; home_id := 16 |}.
Proof.
  assert (H1 : records data) by (vm_compute; reflexivity).
  assert (H2 : 1 <= 15 <= length data - 2) by (cbn; lia).
  assert (H3 : arith_defined data 15 = true) by (vm_compute; reflexivity).
  split; [exact H1|]. split; [exact H2|]. split; [exact H3|].
  exact (proj1 (candidate_delta_never_negative data 15
                  correctly_rounded_positive H1 H2 H3)).
Defined.

(** *** C7: determinism *)

(** C7: the outcome of a call depends on the sequence of records alone: two
    calls on the same sequence, whatever the module state and whatever a
    previous call left behind, have the same outcome, value or exception. *)
Theorem analyze_points_deterministic {libm : Libm}
    (G1 G2 : Type) (h1 : heap G1) (h2 : heap G2) :
  points_obj h1 = points_obj h2 ->
  snd (run_analyze_points h1) = snd (run_analyze_points h2) /\
  snd (run_analyze_points h1) = analyze_points (points_obj h1).
Proof.
  intros E. unfold analyze_points.
  rewrite !run_analyze_points_spec. cbn [snd points_obj]. now rewrite E.
Qed.

Lemma analyze_points_deterministic_witness :
  snd (run_analyze_points (mk_heap data data [])) =
  snd (run_analyze_points (mk_heap (Some 7) data [mk_delta (PyInt 0) 18])).
Proof.
  exact (proj1 (analyze_points_deterministic _ _
                  (mk_heap data data [])
                  (mk_heap (Some 7) data [mk_delta (PyInt 0) 18])
                  eq_refl)).
Defined.

(** *** C8: no side effect *)

(** C8: a call leaves the sequence of records, the records and the module
    state as it found them, whether it returns or raises; the only object it
    writes is its own list [deltas]. *)
Theorem analyze_points_frame {libm : Libm} (G : Type) (h : heap G) :
  module_state (fst (run_analyze_points h)) = module_state h /\
  points_obj (fst (run_analyze_points h)) = points_obj h.
Proof. rewrite run_analyze_points_spec. split; reflexivity. Qed.

(** *** C9: the last candidate *)

(** C9, as stated, fails: the last candidate does not always receive a
    delta; when the square of its voltage drop overflows it raises before
    the sum of the empty window is looked at, and so does the call on three
    records. *)
Lemma last_candidate_can_raise :
  length series_last_huge = 3 /\ records series_last_huge /\
  candidate series_last_huge (length series_last_huge - 2) = Raise OverflowError /\
  analyze_points series_last_huge = Raise OverflowError.
Proof. repeat split; vm_compute; reflexivity. Qed.

(** C9 (amended): for at least three records the future window of the last
    candidate index [n - 2] is empty and its current sum is the int [0], so
    that candidate receives the delta [0] unless the square of its voltage
    drop overflows, in which case it raises [OverflowError]; hence for
    exactly three records a returned delta is always the int [0], and the
    call returns whenever that square does not overflow. *)
Theorem last_candidate_delta_zero {libm : Libm} points :
  3 <= length points -> records points ->
  skipn (length points - 2 + 2) points = [] /\
  sum_by_index (skipn (length points - 2 + 2) points) 1 = Ok (PyInt 0) /\
  candidate points (length points - 2) =
    (if pow2_raises (volt_drop points (length points - 2))
     then Raise OverflowError
     else Ok {| delta := PyInt 0;
                home_id := ident (point_at points (length points - 2)) |}) /\
  (length points = 3 ->
   (forall r, analyze_points points = Ok r -> delta r = PyInt 0) /\
   (pow2_raises (volt_drop points 1) = false ->
    analyze_points points =
      Ok {| delta := PyInt 0; home_id := ident (point_at points 1) |})).
Proof.
  intros Hn Hrec.
  assert (Hw : skipn (length points - 2 + 2) points = [])
    by (apply skipn_all2; lia).
  assert (Hc : candidate points (length points - 2) =
    (if pow2_raises (volt_drop points (length points - 2))
     then Raise OverflowError
     else Ok {| delta := PyInt 0;
                home_id := ident (point_at points (length points - 2)) |})).
  { rewrite (candidate_spec points _ Hrec) by lia.
    unfold candidate_outcome, expected, delta_formula.
    assert (E : guarded points (length points - 2) = true).
    { unfold guarded, future_ampers_sum. now rewrite Hw. }
    now rewrite E. }
  split; [exact Hw|]. split; [now rewrite Hw|]. split; [exact Hc|].
  intros H3. rewrite H3 in Hc. cbn [Nat.sub] in Hc.
  assert (Ha : analyze_points points = candidate points 1).
  { rewrite analyze_points_spec, H3. cbn [range Nat.sub seq collect].
    destruct (candidate points 1); reflexivity. }
  rewrite Ha, Hc. split.
  - intros r. destruct (pow2_raises (volt_drop points 1)); [discriminate|].
    now intros [= <-].
  - now intros ->.
Qed.

Lemma last_candidate_delta_zero_witness :
  3 <= length data /\ records data /\
  candidate data 17 = Ok {| delta := PyInt 0; home_id := 18 |}.
Proof.
  assert (H1 : 3 <= length data) by (cbn; lia).
  assert (H2 : records data) by (vm_compute; reflexivity).
  split; [exact H1|]. split; [exact H2|].
  exact (proj1 (proj2 (proj2 (last_candidate_delta_zero data H1 H2)))).
Defined.

(** *** C10: the ratio *)

(** C10, as stated, fails: the two divisions the code performs do not give
    the single quotient [(V_i - V_{i+1})^2 / (R_i^2 * S^2)].  With a unit
    voltage drop, a unit current sum and a resistance of 0.015 (no [pow]
    is called on these) they differ in the last digit; with a drop of
    2^500, a resistance of 2^-40 and a current sum of 2^40 the delta is
    infinite where the quotient is 2^1000. *)
Lemma ratio_is_not_the_closed_form :
  (records series_unit /\
   guarded series_unit 1 = false /\
   candidate series_unit 1 =
     Ok {| delta := PyFloat 4444.444444444445; home_id := 2 |} /\
   delta_closed_form series_unit 1 = 4444.444444444444%float /\
   (4444.444444444445 =? delta_closed_form series_unit 1)%float = false) /\
  (records series_far /\
   guarded series_far 1 = false /\
   candidate series_far 1 =
     Ok {| delta := PyFloat infinity; home_id := 2 |} /\
   delta_closed_form series_far 1 = 0x1p+1000%float).
Proof. repeat split; vm_compute; reflexivity. Qed.

(** C10 (amended): with a [pow] that returns nothing negative, for a
    candidate with non-zero resistance and non-zero future current sum whose
    arithmetic is defined, the delta is the float
    [((V_i - V_{i+1})^2 / R_i) / (S^2 * R_i)], computed in that order with
    the squares of [** 2]; it is never negative, for a negative resistance
    as for a positive one: it is at least zero or it is NaN. *)
Theorem unguarded_delta_ratio {libm : Libm} points i :
  pow2_positive ->
  records points -> 1 <= i <= length points - 2 ->
  (resistance (point_at points i) =? 0)%float = false ->
  num_eq0 (future_ampers_sum points i) = false ->
  arith_defined points i = true ->
  candidate points i =
    Ok {| delta :=
            PyFloat (square (volt_drop points i)
                     / resistance (point_at points i)
                     / (square (to_float (future_ampers_sum points i))
                        * resistance (point_at points i)))%float;
          home_id := ident (point_at points i) |} /\
  (square (volt_drop points i)
   / resistance (point_at points i)
   / (square (to_float (future_ampers_sum points i))
      * resistance (point_at points i)) <? 0)%float = false /\
  (is_nan (square (volt_drop points i)
           / resistance (point_at points i)
           / (square (to_float (future_ampers_sum points i))
              * resistance (point_at points i)))%float = true \/
   (0 <=? square (volt_drop points i)
          / resistance (point_at points i)
          / (square (to_float (future_ampers_sum points i))
             * resistance (point_at points i)))%float = true).
Proof.
  intros P Hrec Hi HR HS Hdef.
  split; [|split; [apply ratio_not_negative | apply ratio_nan_or_nonneg];
           now apply square_sign].
  rewrite (candidate_defined points i Hrec (interior_next points i Hi) Hdef).
  unfold expected, delta_formula, guarded, volt_power, amper_power.
  now rewrite HR, HS.
Qed.

Lemma unguarded_delta_ratio_witness :
  records series_negative /\ 1 <= 1 <= length series_negative - 2 /\
  (resistance (point_at series_negative 1) <? 0)%float = true /\
  (resistance (point_at series_negative 1) =? 0)%float = false /\
  num_eq0 (future_ampers_sum series_negative 1) = false /\
  arith_defined series_negative 1 = true /\
  candidate series_negative 1 =
    Ok {| delta := PyFloat 4444.444444444445; home_id := 2 |}.
Proof.
  assert (H1 : records series_negative) by (vm_compute; reflexivity).
  assert (H2 : 1 <= 1 <= length series_negative - 2) by (cbn; lia).
  assert (H3 : (resistance (point_at series_negative 1) =? 0)%float = false)
    by (vm_compute; reflexivity).
  assert (H4 : num_eq0 (future_ampers_sum series_negative 1) = false)
    by (vm_compute; reflexivity).
  assert (H5 : arith_defined series_negative 1 = true)
    by (vm_compute; reflexivity).
  split; [exact H1|]. split; [exact H2|].
  split; [vm_compute; reflexivity|]. split; [exact H3|].
  split; [exact H4|]. split; [exact H5|].
  exact (proj1 (unguarded_delta_ratio series_negative 1
                  correctly_rounded_positive H1 H2 H3 H4 H5)).
Defined.

(** ** Further properties of the analyzer *)

Lemma collect_ext {libm : Libm} ps qs idx :
  (forall i, In i idx -> candidate ps i = candidate qs i) ->
  collect ps idx = collect qs idx.
Proof.
  induction idx as [|i idx IH]; intros H; [reflexivity|].
  cbn [collect]. rewrite (H i) by now left.
  rewrite IH; [reflexivity|]. intros j Hj. apply H. now right.
Qed.

Lemma analyze_points_ext {libm : Libm} ps qs :
  length ps = length qs ->
  (forall i, 1 <= i <= length ps - 2 -> candidate ps i = candidate qs i) ->
  analyze_points ps = analyze_points qs.
Proof.
  intros Hl H. rewrite !analyze_points_spec. cbv zeta. rewrite <- Hl.
  rewrite (collect_ext ps qs); [reflexivity|].
  intros i Hi. apply H. now apply range_interior.
Qed.

(** X1: the first record is never read: replacing it by anything, even by
    an empty dict, leaves the outcome of the call unchanged. *)
Theorem first_record_never_read {libm : Libm} (p p' : point)
    (rest : list point) :
  analyze_points (p :: rest) = analyze_points (p' :: rest).
Proof.
  apply analyze_points_ext; [reflexivity|].
  intros i Hi. destruct i as [|i]; [lia|]. reflexivity.
Qed.

Lemma point_at_tl (ps : list point) i :
  1 <= i -> point_at ps i = nth (i - 1) (tl ps) [].
Proof.
  intros Hi. unfold point_at. destruct i as [|i]; [lia|].
  cbn [Nat.sub]. rewrite Nat.sub_0_r. destruct ps; [now destruct i|reflexivity].
Qed.

Lemma volts_at (ps : list point) i :
  1 <= i -> volts (point_at ps i) = nth (i - 1) (map volts (tl ps)) 0%float.
Proof.
  intros Hi. rewrite point_at_tl by assumption.
  change 0%float with (volts []). now rewrite map_nth.
Qed.

Lemma candidate_cells_at (ps : list point) i :
  1 <= i <= length ps - 2 ->
  (ident (point_at ps i), resistance (point_at ps i)) =
  nth (i - 1)
    (map (fun p => (ident p, resistance p)) (firstn (length ps - 2) (tl ps)))
    (0%Z, 0%float).
Proof.
  intros Hi. rewrite point_at_tl by lia.
  change (0%Z, 0%float) with ((fun p => (ident p, resistance p)) []).
  rewrite map_nth. f_equal; f_equal; rewrite nth_firstn;
    (replace (i - 1 <? length ps - 2) with true by (symmetry; apply Nat.ltb_lt; lia));
    reflexivity.
Qed.

Lemma fold_ampers (l : list point) : forall acc,
  fold_left (fun a p => num_add a (ampers p)) l acc =
  fold_left num_add (map ampers l) acc.
Proof. induction l as [|p l IH]; intros acc; [reflexivity|]. cbn. apply IH. Qed.

Lemma future_sum_cells (ps : list point) i :
  1 <= i ->
  future_ampers_sum ps i =
  fold_left num_add (skipn (i - 1) (map ampers (skipn 3 ps))) (PyInt 0).
Proof.
  intros Hi. unfold future_ampers_sum.
  rewrite fold_ampers, <- !skipn_map, skipn_skipn.
  now replace (i - 1 + 3) with (i + 2) by lia.
Qed.

Lemma read_cells_length (ps qs : list point) :
  read_cells ps = read_cells qs -> 3 <= length ps -> length ps = length qs.
Proof.
  unfold read_cells. intros Hv Hn.
  apply pair_equal_spec in Hv as [Hv _]. apply pair_equal_spec in Hv as [Hv _].
  apply (f_equal (@length float)) in Hv. rewrite !length_map in Hv.
  destruct ps as [|p ps]; [cbn in Hn; lia|]. destruct qs as [|q qs].
  - cbn in Hv. cbn in Hn. lia.
  - cbn in Hv |- *. lia.
Qed.

Lemma candidate_outcome_cells {libm : Libm} (ps qs : list point) i :
  read_cells ps = read_cells qs -> length ps = length qs ->
  1 <= i <= length ps - 2 ->
  candidate_outcome ps i = candidate_outcome qs i.
Proof.
  intros Hv Hl Hi. unfold read_cells in Hv.
  apply pair_equal_spec in Hv as [Hv Ha]. apply pair_equal_spec in Hv as [Hv Hr].
  assert (EV : forall j, 1 <= j -> volts (point_at ps j) = volts (point_at qs j)).
  { intros j Hj. now rewrite !volts_at, Hv by assumption. }
  assert (ER : (ident (point_at ps i), resistance (point_at ps i)) =
               (ident (point_at qs i), resistance (point_at qs i))).
  { rewrite !candidate_cells_at by lia. now rewrite Hr. }
  injection ER as EI ER.
  assert (ES : future_ampers_sum ps i = future_ampers_sum qs i).
  { rewrite !future_sum_cells by lia. now rewrite Ha. }
  unfold candidate_outcome, expected, delta_formula, guarded, amper_power,
    volt_power, volt_drop.
  now rewrite ES, ER, EI, !(EV i), !(EV (i + 1)) by lia.
Qed.

(** X2: on records the outcome of a call depends on the cells of
    [read_cells] alone: the power of every record, the whole first record,
    the current of the first three records and the resistance of the last
    one are never used. *)
Theorem outcome_depends_on_read_cells {libm : Libm} (ps qs : list point) :
  records ps -> records qs -> read_cells ps = read_cells qs ->
  analyze_points ps = analyze_points qs.
Proof.
  intros Hp Hq Hv.
  destruct (Nat.lt_ge_cases (length ps) 3) as [Hn|Hn].
  - assert (Hm : length qs < 3).
    { destruct (Nat.lt_ge_cases (length qs) 3) as [|Hm]; [assumption|].
      symmetry in Hv. pose proof (read_cells_length qs ps Hv Hm). lia. }
    rewrite !analyze_points_spec. unfold range.
    replace (length ps - 1 - 1) with 0 by lia.
    replace (length qs - 1 - 1) with 0 by lia. reflexivity.
  - pose proof (read_cells_length ps qs Hv Hn) as Hl.
    apply analyze_points_ext; [assumption|]. intros i Hi.
    rewrite (candidate_spec ps i Hp), (candidate_spec qs i Hq) by lia.
    now apply candidate_outcome_cells.
Qed.

Lemma outcome_depends_on_read_cells_witness :
  records series_unit /\ records series_unit_variant /\
  read_cells series_unit = read_cells series_unit_variant /\
  analyze_points series_unit = analyze_points series_unit_variant.
Proof.
  assert (H1 : records series_unit) by (vm_compute; reflexivity).
  assert (H2 : records series_unit_variant) by (vm_compute; reflexivity).
  assert (H3 : read_cells series_unit = read_cells series_unit_variant)
    by (vm_compute; reflexivity).
  split; [exact H1|]. split; [exact H2|]. split; [exact H3|].
  exact (outcome_depends_on_read_cells series_unit series_unit_variant H1 H2 H3).
Defined.

(** *** NaN and the scan of [max] *)

Lemma nan_not_gt (x y : num) :
  is_delta x -> is_delta y ->
  is_nan (to_float x) = true \/ is_nan (to_float y) = true ->
  num_gt x y = false.
Proof.
  intros Dx Dy H. destruct (num_gt x y) eqn:E; [|reflexivity].
  apply num_gt_key in E; try assumption.
  destruct E as (a & b & Hy & Hx & _).
  destruct H as [H|H]; apply fkey_none in H; unfold dkey in *; congruence.
Qed.

Lemma gt_not_nan (x y : num) :
  is_delta x -> is_delta y -> num_gt x y = true ->
  is_nan (to_float x) = false.
Proof.
  intros Dx Dy H. destruct (is_nan (to_float x)) eqn:E; [|reflexivity].
  rewrite (nan_not_gt x y Dx Dy) in H by now left. discriminate.
Qed.

(** The scan ends on a NaN exactly when it starts on one. *)
Lemma scan_nan xs m :
  deltas_ok (m :: xs) ->
  is_nan (to_float (delta (scan xs m))) = is_nan (to_float (delta m)).
Proof.
  intros D. pose proof D as D'. inversion D' as [|? ? Dm Dxs]; subst.
  destruct (is_nan (to_float (delta m))) eqn:E.
  - rewrite scan_keep; [assumption|]. intros y Hy.
    apply nan_not_gt; [|assumption|now right].
    now apply (proj1 (Forall_forall _ _) Dxs).
  - destruct (scan_mono xs m D) as [-> | H]; [assumption|].
    apply (gt_not_nan _ (delta m)); try assumption.
    apply (proj1 (Forall_forall _ _) D). apply scan_in.
Qed.

(** X3: when every candidate has a delta, the returned delta is NaN exactly
    when the delta of the first candidate is NaN: a NaN at the first
    candidate hides every other candidate, a NaN at a later candidate is
    never returned. *)
Theorem returned_nan_is_first_candidate {libm : Libm} points
    (f : nat -> delta_rec) r :
  3 <= length points ->
  (forall j, 1 <= j <= length points - 2 -> candidate points j = Ok (f j)) ->
  analyze_points points = Ok r ->
  is_nan (to_float (delta r)) = is_nan (to_float (delta (f 1))).
Proof.
  intros Hn Hc. rewrite (analyze_points_scan points f Hn Hc). intros [= <-].
  apply scan_nan. apply (candidates_ok points). intros j Hj. apply Hc. lia.
Qed.

Lemma returned_nan_is_first_candidate_witness :
  candidate series_later_nan 2 = Ok {| delta := PyFloat nan; home_id := 3 |} /\
  analyze_points series_later_nan = Ok {| delta := PyFloat 0; home_id := 2 |} /\
  is_nan (to_float (PyFloat 0)) =
  is_nan (to_float (delta (expected series_later_nan 1))).
Proof.
  split; [vm_compute; reflexivity|]. split; [vm_compute; reflexivity|].
  assert (H1 : 3 <= length series_later_nan) by (cbn; lia).
  assert (H2 : forall j, 1 <= j <= length series_later_nan - 2 ->
                 candidate series_later_nan j = Ok (expected series_later_nan j)).
  { intros j Hj. cbn in Hj.
    assert (j = 1 \/ j = 2 \/ j = 3) as [-> | [-> | ->]] by lia;
      vm_compute; reflexivity. }
  assert (H3 : analyze_points series_later_nan =
               Ok {| delta := PyFloat 0; home_id := 2 |})
    by (vm_compute; reflexivity).
  exact (returned_nan_is_first_candidate series_later_nan
           (expected series_later_nan) _ H1 H2 H3).
Defined.

(** *** Outcomes on records *)

Lemma analyze_points_returns_expected {libm : Libm} points :
  3 <= length points -> records points ->
  forallb (arith_defined points) (range 1 (length points - 1)) = true ->
  exists i, 1 <= i <= length points - 2 /\
            analyze_points points = Ok (expected points i).
Proof.
  intros Hn Hrec Hdef.
  assert (Hc : forall j, 1 <= j <= length points - 2 ->
                         candidate points j = Ok (expected points j)).
  { intros j Hj. apply candidate_defined; [assumption | lia |].
    rewrite forallb_forall in Hdef. apply Hdef. now apply range_interior. }
  rewrite (analyze_points_scan points (expected points) Hn Hc).
  destruct (proj1 (in_candidates _ _ _)
              (scan_in (map (expected points) (seq 2 (length points - 3)))
                 (expected points 1))) as (i & Hi & Ei).
  exists i. split; [lia|]. now rewrite Ei.
Qed.

(** X4: whatever the platform's [pow], on at least three records the call
    never raises [IndexError] nor [ValueError], and it returns exactly when
    the arithmetic of every candidate is defined: no [** 2] raises and no
    divisor of an unguarded candidate is zero. *)
Theorem records_never_index_error {libm : Libm} points :
  3 <= length points -> records points ->
  analyze_points points <> Raise IndexError /\
  analyze_points points <> Raise ValueError /\
  ((exists r, analyze_points points = Ok r) <->
   forallb (arith_defined points) (range 1 (length points - 1)) = true).
Proof.
  intros Hn Hrec.
  destruct (forallb (arith_defined points) (range 1 (length points - 1))) eqn:E.
  - destruct (analyze_points_returns_expected points Hn Hrec E) as (i & _ & ->).
    repeat split; try discriminate. eauto.
  - destruct (analyze_points_raises points Hn Hrec E) as [-> | ->];
      (repeat split; try discriminate; intros [r H]; discriminate).
Qed.

Lemma records_never_index_error_witness :
  3 <= length series_tiny_current /\ records series_tiny_current /\
  analyze_points series_tiny_current <> Raise IndexError.
Proof.
  assert (H1 : 3 <= length series_tiny_current) by (cbn; lia).
  assert (H2 : records series_tiny_current) by (vm_compute; reflexivity).
  split; [exact H1|]. split; [exact H2|].
  exact (proj1 (records_never_index_error series_tiny_current H1 H2)).
Defined.

(** X5: with a [pow] that returns nothing negative, whenever the call
    returns on records, the pair it returns is the pair of the formula at an
    interior index, and its delta is never negative: the int [0], or a float
    that is at least zero or NaN. *)
Theorem returned_delta_never_negative {libm : Libm} points r :
  pow2_positive ->
  3 <= length points -> records points ->
  analyze_points points = Ok r ->
  (exists i, 1 <= i <= length points - 2 /\ r = expected points i) /\
  (delta r = PyInt 0 \/
   exists q, delta r = PyFloat q /\ (q <? 0)%float = false /\
             (is_nan q = true \/ (0 <=? q)%float = true)).
Proof.
  intros P Hn Hrec Hr.
  destruct (forallb (arith_defined points) (range 1 (length points - 1))) eqn:E.
  - destruct (analyze_points_returns_expected points Hn Hrec E) as (i & Hi & Ei).
    rewrite Ei in Hr. injection Hr as <-. split; [eauto|].
    unfold expected, delta_formula. cbn [delta].
    destruct (guarded points i) eqn:Hg; [now left|right].
    eexists. split; [reflexivity|].
    unfold guarded in Hg. apply orb_false_elim in Hg as [_ HR].
    unfold volt_power, amper_power. rewrite HR. cbn [to_float].
    split; [apply ratio_not_negative | apply ratio_nan_or_nonneg];
      now apply square_sign.
  - destruct (analyze_points_raises points Hn Hrec E) as [H|H];
      rewrite H in Hr; discriminate.
Qed.

Lemma returned_delta_never_negative_witness :
  3 <= length series_negative /\ records series_negative /\
  analyze_points series_negative =
    Ok {| delta := PyFloat 4444.444444444445; home_id := 2 |} /\
  (exists i, 1 <= i <= length series_negative - 2 /\
     {| delta := PyFloat 4444.444444444445; home_id := 2 |} =
     expected series_negative i).
Proof.
  assert (H1 : 3 <= length series_negative) by (cbn; lia).
  assert (H2 : records series_negative) by (vm_compute; reflexivity).
  assert (H3 : analyze_points series_negative =
               Ok {| delta := PyFloat 4444.444444444445; home_id := 2 |})
    by (vm_compute; reflexivity).
  split; [exact H1|]. split; [exact H2|]. split; [exact H3|].
  exact (proj1 (returned_delta_never_negative series_negative _
                  correctly_rounded_positive H1 H2 H3)).
Defined.

(** *** [sum_by_index] *)

Lemma sum_from_outcome data index : forall acc,
  sum_from acc data index =
  if forallb (has_cell index) data
  then Ok (fold_left (fun a d => num_add a (cell_at index d)) data acc)
  else Raise IndexError.
Proof.
  induction data as [|d data IH]; intros acc; [reflexivity|].
  cbn [sum_from forallb fold_left].
  destruct d as [|[k r] d]; [reflexivity|].
  cbn [values map snd getitem nth_error bind has_cell].
  unfold getitem.
  destruct (nth_error r index) as [x|] eqn:E; cbn [bind].
  - assert (Hlt : index < length r) by (apply nth_error_Some; congruence).
    apply Nat.ltb_lt in Hlt. rewrite Hlt. cbn [andb].
    assert (Hx : cell_at index ((k, r) :: d) = x)
      by (unfold cell_at; cbn [row]; now apply nth_error_nth).
    rewrite Hx. apply IH.
  - apply nth_error_None in E.
    replace (index <? length r) with false
      by (symmetry; apply Nat.ltb_ge; assumption).
    reflexivity.
Qed.

(** X6: [sum_by_index] raises [IndexError] exactly when some dict is empty
    or the first row of some dict has no cell at [index]; otherwise it
    returns the left-to-right sum of those cells, the int [0] for no dict at
    all and a float as soon as there is one. Rows need not have the same
    length and only the first entry of a dict counts. *)
Theorem sum_by_index_outcome data index :
  sum_by_index data index =
    (if forallb (has_cell index) data
     then Ok (fold_left (fun a d => num_add a (cell_at index d)) data (PyInt 0))
     else Raise IndexError) /\
  (data = [] \/
   exists f, fold_left (fun a d => num_add a (cell_at index d)) data (PyInt 0)
             = PyFloat f).
Proof.
  split; [apply sum_from_outcome|].
  destruct data as [|d data]; [now left|right].
  cbn [fold_left]. unfold num_add at 2.
  generalize (to_float (PyInt 0) + cell_at index d)%float.
  induction data as [|d' data IH]; intros f; cbn; eauto.
Qed.

(** ** The converters *)

Section ConverterFacts.

Context {V K : Type}.

Lemma append_values (l acc : list V) :
  fold_left (fun values value => values ++ [value]) l acc = acc ++ l.
Proof.
  revert acc. induction l as [|v l IH]; intro acc; cbn.
  - now rewrite app_nil_r.
  - rewrite IH, <- app_assoc. reflexivity.
Qed.

Lemma normalize_from (data : list (V * list (K * V))) (acc : list (list V)) :
  fold_left
    (fun data_values item =>
       let '(point, nested_dict) := item in
       let values :=
         fold_left (fun values value => values ++ [value])
           (map snd nested_dict) [point] in
       data_values ++ [values])
    data acc
  = acc ++ map (fun item => fst item :: map snd (snd item)) data.
Proof.
  revert acc. induction data as [|[p nd] data IH]; intro acc; cbn.
  - now rewrite app_nil_r.
  - rewrite IH, append_values, <- app_assoc. reflexivity.
Qed.

Lemma normalize_rows (data : list (V * list (K * V))) :
  normalize_dict_to_list data
  = map (fun item => fst item :: map snd (snd item)) data.
Proof. unfold normalize_dict_to_list. now rewrite normalize_from. Qed.

(** X7 (normalize_dict_to_list). The loop with its two [append]s builds one
    row for each item of the table, in the order of the items: the key,
    followed by the values of the nested dict in their order. So the keys
    are the heads of the rows, the nested values their tails, and nothing of
    the table but the inner keys is lost. *)
Theorem normalize_dict_to_list_rows (data : list (V * list (K * V))) :
  normalize_dict_to_list data
  = map (fun item => fst item :: map snd (snd item)) data /\
  length (normalize_dict_to_list data) = length data /\
  map (hd_error (A:=V)) (normalize_dict_to_list data) = map (fun item => Some (fst item)) data /\
  map (tl (A:=V)) (normalize_dict_to_list data) = map (fun item => map snd (snd item)) data.
Proof.
  rewrite normalize_rows. repeat split.
  - now rewrite length_map.
  - rewrite map_map. reflexivity.
  - rewrite map_map. reflexivity.
Qed.

(** *** [extract_home_data] *)

Lemma has_key_found (d : str_dict V) k :
  has_key d k = true -> exists v, dict_get d k = Found v.
Proof.
  unfold has_key. destruct (dict_get d k) as [v|k']; [eauto | discriminate].
Qed.

Lemma dict_get_key_error (d : str_dict V) k k' :
  dict_get d k = KeyError k' -> k' = k.
Proof.
  induction d as [|[k0 v] d IH]; cbn.
  - congruence.
  - destruct (String.eqb k0 k); [discriminate | exact IH].
Qed.

Lemma has_key_missing (d : str_dict V) k :
  has_key d k = false -> dict_get d k = KeyError k.
Proof.
  unfold has_key. destruct (dict_get d k) as [v|k'] eqn:E; [discriminate|].
  intros _. now rewrite (dict_get_key_error _ _ _ E).
Qed.

(** The outcome of the six lookups, by the first key that is missing. *)
Lemma extract_point_outcome (d : str_dict V) :
  match missing_key d with
  | Some k => extract_point d = KeyError k
  | None => exists e, extract_point d = Found e /\ is_entry d e
  end.
Proof.
  unfold missing_key, point_keys, extract_point, is_entry. cbn [find].
  repeat
    match goal with
    | |- context [negb (has_key d ?k)] =>
        let E := fresh "E" in
        destruct (has_key d k) eqn:E; cbn [negb];
        [ apply has_key_found in E as [? E]; rewrite E; cbn [kbind]
        | apply has_key_missing in E; rewrite E; reflexivity ]
    end.
  eexists. split; [reflexivity|].
  repeat eexists; eassumption.
Qed.

Lemma extract_loop_acc (points : list (str_dict V)) acc :
  extract_loop points acc
  = kbind (extract_loop points []) (fun l => Found (acc ++ l)).
Proof.
  revert acc. induction points as [|d points IH]; intro acc; cbn.
  - now rewrite app_nil_r.
  - destruct (extract_point d) as [e|k]; cbn; [|reflexivity].
    rewrite (IH (acc ++ [e])), (IH [e]).
    destruct (extract_loop points []) as [l|k]; cbn; [|reflexivity].
    now rewrite <- app_assoc.
Qed.

Lemma extract_loop_cons (d : str_dict V) points :
  extract_loop (d :: points) []
  = kbind (extract_point d) (fun e =>
    kbind (extract_loop points []) (fun l => Found (e :: l))).
Proof.
  cbn. destruct (extract_point d) as [e|k]; cbn; [|reflexivity].
  now rewrite extract_loop_acc.
Qed.

(** X8 (extract_home_data, the complete case). When every dict has the six
    keys, the function returns one single-entry dict for each point, in the
    order of the points: the value of [home_id] mapped to the values of
    [volts], [ampers], [power], [resistance] and [home_num], in this order;
    and it has printed its argument once. *)
Theorem extract_home_data_complete (points : list (str_dict V)) :
  forallb complete points = true ->
  fst (extract_home_data points) = [points] /\
  exists rows,
    snd (extract_home_data points) = Found rows /\
    Forall2 is_entry points rows.
Proof.
  intro H. split; [reflexivity|]. unfold extract_home_data. cbn [snd].
  induction points as [|d points IH].
  - exists []. split; [reflexivity | constructor].
  - cbn [forallb] in H. apply andb_true_iff in H as [Hd H].
    destruct (IH H) as [rows [E F]].
    rewrite extract_loop_cons, E.
    pose proof (extract_point_outcome d) as O.
    assert (M : missing_key d = None).
    { unfold missing_key. destruct (find _ point_keys) as [k|] eqn:Ek; [|reflexivity].
      apply find_some in Ek as [Hin Hk].
      unfold complete in Hd.
      rewrite forallb_forall in Hd. rewrite (Hd _ Hin) in Hk. discriminate. }
    rewrite M in O. destruct O as [e [Ee He]]. rewrite Ee. cbn.
    exists (e :: rows). split; [reflexivity | now constructor].
Qed.

(** X9 (extract_home_data, the failing case). The function raises
    [KeyError] for a key exactly when some point lacks one of the six keys,
    and the key reported is the first one missing, in the order of the
    lookups ([home_id], [volts], [ampers], [power], [resistance],
    [home_num]), of the first such point; the points after it are not
    looked at. *)
Theorem extract_home_data_key_error (points : list (str_dict V)) (k : string) :
  snd (extract_home_data points) = KeyError k <->
  exists before d after,
    points = before ++ d :: after /\
    forallb complete before = true /\
    missing_key d = Some k.
Proof.
  unfold extract_home_data. cbn [snd].
  induction points as [|d points IH].
  - split; [discriminate|].
    intros [[|? ?] [? [? [E _]]]]; discriminate.
  - rewrite extract_loop_cons.
    pose proof (extract_point_outcome d) as O.
    destruct (missing_key d) as [k'|] eqn:M.
    + rewrite O. cbn. split.
      * intro E. injection E as <-.
        exists [], d, points. repeat split. exact M.
      * intros [[|d0 before] [d' [after [E [Hb Hm]]]]].
        -- injection E as <- _. change (missing_key d = Some k) in Hm. congruence.
        -- injection E as <- _. cbn [forallb] in Hb.
           apply andb_true_iff in Hb as [Hd _].
           unfold missing_key in M. apply find_some in M as [Hin Hk].
           unfold complete in Hd. rewrite forallb_forall in Hd. rewrite (Hd _ Hin) in Hk. discriminate.
    + destruct O as [e [Ee He]]. rewrite Ee. cbn [kbind].
      assert (Hd : complete d = true).
      { apply forallb_forall. intros x Hx.
        unfold missing_key in M.
        pose proof (find_none _ _ M x Hx) as N. now apply negb_false_iff in N. }
      split.
      * intro E.
        destruct (extract_loop points []) as [l|k0] eqn:El; [discriminate|].
        cbn in E. injection E as ->.
        destruct (proj1 IH eq_refl) as [before [d' [after [Ep [Hb Hm]]]]].
        exists (d :: before), d', after. repeat split.
        -- now rewrite Ep.
        -- cbn [forallb]. now rewrite Hd, Hb.
        -- exact Hm.
      * intros [[|d0 before] [d' [after [E [Hb Hm]]]]].
        -- injection E as <- _. change (missing_key d = Some k) in Hm. congruence.
        -- injection E as <- E. cbn [forallb] in Hb.
           apply andb_true_iff in Hb as [_ Hb].
           assert (X : extract_loop points [] = KeyError k).
           { apply IH. exists before, d', after. auto. }
           now rewrite X.
Qed.

End ConverterFacts.

Lemma extract_home_data_complete_witness :
  forallb complete sample_dicts = true /\
  exists rows,
    snd (extract_home_data sample_dicts) = Found rows /\
    Forall2 is_entry sample_dicts rows.
Proof.
  assert (H : forallb complete sample_dicts = true) by (vm_compute; reflexivity).
  split; [exact H|].
  exact (proj2 (extract_home_data_complete sample_dicts H)).
Defined.

(** ** The upload handler and the update loop *)

Section HandlerFacts.

Context {V K : Type}.

Lemma point_of_row_outcome (col : V * list (K * V)) :
  point_of_row (row_of col)
  = match column_args col with
    | Some a => Ok a
    | None => Raise IndexError
    end.
Proof.
  destruct col as [name cells]. unfold row_of, column_args. cbn [fst snd].
  destruct (map snd cells) as [|v [|a [|p [|r l]]]]; reflexivity.
Qed.

Lemma full_column_args (col : V * list (K * V)) :
  full_column col = true <-> exists a, column_args col = Some a.
Proof.
  destruct col as [name cells]. unfold full_column, column_args. cbn [fst snd].
  rewrite <- (length_map snd cells).
  destruct (map snd cells) as [|v [|a [|p [|r l]]]]; cbn;
    split; try discriminate; try (intros [? ?]; discriminate); eauto.
Qed.

Lemma full_columns_args (cols : list (V * list (K * V))) :
  forallb full_column cols = true ->
  exists args, map column_args cols = map Some args.
Proof.
  induction cols as [|c cols IH]; cbn [forallb]; intro H.
  - now exists [].
  - apply andb_true_iff in H as [Hc H].
    apply full_column_args in Hc as [a Ha]. destruct (IH H) as [args Hargs].
    exists (a :: args). cbn. now rewrite Ha, Hargs.
Qed.

Lemma points_after_first (table : list (V * list (K * V))) :
  skipn 1 (normalize_dict_to_list table) = map row_of (tl table).
Proof.
  rewrite normalize_rows. destruct table; reflexivity.
Qed.

Lemma excel_loop_full (cols : list (V * list (K * V))) args n trace :
  map column_args cols = map Some args ->
  excel_loop (map row_of cols) n trace
  = (trace ++ map SessionAdd args, Ok (n + length cols)).
Proof.
  revert args n trace. induction cols as [|c cols IH]; intros [|a args] n trace H;
    try discriminate.
  - cbn. now rewrite app_nil_r, Nat.add_0_r.
  - cbn [map] in H. injection H as Ha H.
    cbn [map excel_loop]. rewrite point_of_row_outcome, Ha.
    rewrite (IH _ _ _ H), <- app_assoc. cbn [length app]. f_equal. f_equal. lia.
Qed.

Lemma excel_loop_short (before : list (V * list (K * V))) c after args n trace :
  map column_args before = map Some args ->
  full_column c = false ->
  excel_loop (map row_of (before ++ c :: after)) n trace
  = (trace ++ map SessionAdd args, Raise IndexError).
Proof.
  intros H Hc. revert args n trace H.
  induction before as [|b before IH]; intros [|a args] n trace H; try discriminate.
  - cbn [app map excel_loop]. rewrite point_of_row_outcome.
    destruct (column_args c) as [a|] eqn:Ha.
    + assert (X : full_column c = true) by (apply full_column_args; eauto).
      congruence.
    + now rewrite app_nil_r.
  - cbn [map] in H. injection H as Ha H.
    cbn [app map excel_loop]. rewrite point_of_row_outcome, Ha.
    rewrite (IH _ _ _ H), <- app_assoc. reflexivity.
Qed.

(** X10 (add_points_excel, every column long enough). When every column of
    the table after the first has at least four cells, the handler adds
    one point for each of these columns, in their order, with the column's
    name as [home_num] and its first four cells as [volts], [ampers],
    [power] and [resistance]; then it commits once, logs the count and
    returns it: the number of columns less one. *)
Theorem add_points_excel_full_columns (table : list (V * list (K * V))) :
  forallb full_column (tl table) = true ->
  exists args,
    map column_args (tl table) = map Some args /\
    add_points_excel table
    = (map SessionAdd args ++ [SessionCommit; LogInfo (length table - 1)],
       Ok (length table - 1)).
Proof.
  intro H. destruct (full_columns_args _ H) as [args Hargs].
  exists args. split; [exact Hargs|].
  unfold add_points_excel. cbv zeta.
  rewrite points_after_first, (excel_loop_full _ _ _ _ Hargs).
  cbn [app Nat.add].
  replace (length (tl table)) with (length table - 1)
    by (destruct table; cbn [tl length]; lia).
  reflexivity.
Qed.

(** X11 (add_points_excel, a short column). When a column after the first
    has fewer than four cells, the handler raises [IndexError] at the first
    such column: the points of the columns before it have been added to the
    session, nothing is committed, the error is logged, and the exception
    is raised again. *)
Theorem add_points_excel_short_column (table : list (V * list (K * V)))
    before c after :
  tl table = before ++ c :: after ->
  forallb full_column before = true ->
  full_column c = false ->
  exists args,
    map column_args before = map Some args /\
    add_points_excel table = (map SessionAdd args ++ [LogError], Raise IndexError) /\
    ~ In SessionCommit (fst (add_points_excel table)).
Proof.
  intros Ht Hb Hc. destruct (full_columns_args _ Hb) as [args Hargs].
  exists args. split; [exact Hargs|].
  assert (E : add_points_excel table
              = (map SessionAdd args ++ [LogError], Raise IndexError)).
  { unfold add_points_excel. cbv zeta.
    rewrite points_after_first, Ht, (excel_loop_short _ _ _ _ _ _ Hargs Hc).
    reflexivity. }
  split; [exact E|]. rewrite E. cbn [fst]. intro Hin.
  apply in_app_or in Hin as [Hin|[Hin|[]]]; [|discriminate].
  apply in_map_iff in Hin as [a [Ha _]]. discriminate.
Qed.

Lemma point_of_row_prefix (name : V) (cells : list V) :
  point_of_row (name :: cells) = point_of_row (name :: firstn 4 cells).
Proof.
  destruct cells as [|v [|a [|p [|r l]]]]; reflexivity.
Qed.

Lemma excel_loop_prefix (cols1 : list (V * list V)) :
  forall (cols2 : list (V * list V)) n trace,
  map (fun c => (fst c, firstn 4 (snd c))) cols1
  = map (fun c => (fst c, firstn 4 (snd c))) cols2 ->
  excel_loop (map (fun c => fst c :: snd c) cols1) n trace
  = excel_loop (map (fun c => fst c :: snd c) cols2) n trace.
Proof.
  induction cols1 as [|[n1 c1] cols1 IH]; intros [|[n2 c2] cols2] n trace H;
    try discriminate; [reflexivity|].
  cbn [map fst snd] in H. injection H as Hn Hc H. subst n2.
  change (firstn 4 c1 = firstn 4 c2) in Hc.
  cbn [map fst snd excel_loop].
  rewrite (point_of_row_prefix n1 c1), (point_of_row_prefix n1 c2), Hc.
  destruct (point_of_row (n1 :: firstn 4 c2)); [|reflexivity].
  now apply IH.
Qed.

End HandlerFacts.

Lemma add_points_excel_full_columns_witness :
  forallb full_column (tl sample_table) = true /\
  exists args,
    map column_args (tl sample_table) = map Some args /\
    add_points_excel sample_table
    = (map SessionAdd args ++ [SessionCommit; LogInfo 2], Ok 2).
Proof.
  assert (H : forallb full_column (tl sample_table) = true)
    by (vm_compute; reflexivity).
  split; [exact H|].
  exact (add_points_excel_full_columns sample_table H).
Defined.

Lemma add_points_excel_short_column_witness :
  forallb full_column (tl sample_table_short) = false /\
  add_points_excel sample_table_short = ([LogError], Raise IndexError).
Proof.
  split; [vm_compute; reflexivity|].
  assert (H1 : tl sample_table_short
               = [] ++ nth 1 sample_table_short (ONone, [])
                    :: skipn 2 sample_table_short) by reflexivity.
  assert (H2 : forallb (full_column (V:=obj) (K:=Z)) [] = true) by reflexivity.
  assert (H3 : full_column (nth 1 sample_table_short (ONone, [])) = false)
    by (vm_compute; reflexivity).
  destruct (add_points_excel_short_column sample_table_short _ _ _ H1 H2 H3)
    as [args [Ha [E _]]].
  destruct args; [exact E | discriminate].
Defined.

(** X12 (add_points_excel, what is read). The handler reads of the table
    the names and the first four cells of the columns after the first, and
    nothing else: the first column, the row labels and every cell after the
    fourth have no effect on what it does and returns. *)
Theorem add_points_excel_reads {V K K' : Type}
    (t1 : list (V * list (K * V))) (t2 : list (V * list (K' * V))) :
  read_columns t1 = read_columns t2 ->
  add_points_excel t1 = add_points_excel t2.
Proof.
  unfold read_columns, add_points_excel. intro H. cbv zeta.
  rewrite !points_after_first.
  assert (E : forall n trace,
    excel_loop (map row_of (tl t1)) n trace
    = excel_loop (map row_of (tl t2)) n trace).
  { intros n trace.
    pose proof (excel_loop_prefix
      (map (fun c => (fst c, map snd (snd c))) (tl t1))
      (map (fun c => (fst c, map snd (snd c))) (tl t2)) n trace) as P.
    rewrite !map_map in P. cbn [fst snd] in P. apply P. exact H. }
  now rewrite E.
Qed.

Lemma add_points_excel_reads_witness :
  read_columns sample_table = read_columns sample_table_variant /\
  add_points_excel sample_table = add_points_excel sample_table_variant.
Proof.
  assert (H : read_columns sample_table = read_columns sample_table_variant)
    by (vm_compute; reflexivity).
  split; [exact H|].
  exact (add_points_excel_reads sample_table sample_table_variant H).
Defined.

(** *** The loop of [update_point] *)

Section UpdateFacts.

Context {V : Type}.

Lemma field_eqb_eq (a b : field) : field_eqb a b = true <-> a = b.
Proof. destruct a, b; cbn; split; congruence. Qed.

Lemma getattr_setattr (p : point_obj V) f g v :
  getattr (setattr p f v) g = if field_eqb f g then v else getattr p g.
Proof. destruct f, g; reflexivity. Qed.

Lemma home_id_setattr (p : point_obj V) f v :
  attr_home_id (setattr p f v) = attr_home_id p.
Proof. destruct f; reflexivity. Qed.

Lemma update_get_absent (u : list (field * option V)) f :
  ~ In f (map fst u) -> update_get u f = None.
Proof.
  induction u as [|[g v] u IH]; cbn; intro H; [reflexivity|].
  destruct (field_eqb g f) eqn:E.
  - apply field_eqb_eq in E. tauto.
  - apply IH. tauto.
Qed.

(** X13 (update_point, the loop). The keys of a dict being distinct, after
    the loop every field that the update gives with a value other than
    [None] has that value, every other field has kept its own, and
    [home_id] is unchanged. *)
Theorem apply_update_fields (point : point_obj V)
    (update_data : list (field * option V)) :
  NoDup (map fst update_data) ->
  (forall f, getattr (apply_update point update_data) f
             = updated point update_data f) /\
  attr_home_id (apply_update point update_data) = attr_home_id point.
Proof.
  unfold apply_update, updated. revert point.
  induction update_data as [|[g v] u IH]; intros point H.
  - split; [intro f|]; reflexivity.
  - cbn [map fst] in H. inversion H as [|? ? Hg Hu]; subst.
    destruct (IH (match v with Some value => setattr point g value | None => point end) Hu)
      as [IHf IHid].
    cbn [fold_left fst snd update_get]. split.
    + intro f. rewrite IHf. destruct (field_eqb g f) eqn:E.
      * apply field_eqb_eq in E. subst f.
        rewrite (update_get_absent _ _ Hg).
        destruct v as [value|]; [|reflexivity].
        rewrite getattr_setattr.
        now rewrite (proj2 (field_eqb_eq g g) eq_refl).
      * destruct (update_get u f) as [[value|]|]; try reflexivity;
          destruct v as [value'|]; try reflexivity;
          now rewrite getattr_setattr, E.
    + rewrite IHid. destruct v; [apply home_id_setattr | reflexivity].
Qed.

End UpdateFacts.

Lemma apply_update_fields_witness :
  NoDup (map fst sample_update) /\
  getattr (apply_update sample_point sample_update) F_volts = OFloat 228.5 /\
  getattr (apply_update sample_point sample_update) F_power = OFloat 1150.0 /\
  getattr (apply_update sample_point sample_update) F_ampers = OFloat 5.0 /\
  attr_home_id (apply_update sample_point sample_update) = OInt 1.
Proof.
  assert (H : NoDup (map fst sample_update)).
  { cbn. repeat (apply NoDup_cons; [cbn [In]; intuition discriminate|]).
    apply NoDup_nil. }
  split; [exact H|].
  destruct (apply_update_fields sample_point sample_update H) as [Hf Hid].
  split; [exact (Hf F_volts)|]. split; [exact (Hf F_power)|].
  split; [exact (Hf F_ampers) | exact Hid].
Defined.

(** ** The log store client *)

Ltac distinct_keys :=
  repeat (apply NoDup_cons;
          [ cbn [In]; intuition discriminate | ]);
  apply NoDup_nil.

Ltac filter_cases level endpoint start_date end_date :=
  destruct level as [[|? ?]|]; destruct endpoint as [[|? ?]|];
  destruct start_date as [?|]; destruct end_date as [?|].

Lemma get_logs_params_given (limit : Z) (level endpoint : option string)
    (start_date end_date : option Z) :
  truthy (ODict (snd (get_logs_request limit level endpoint start_date end_date)))
  = true.
Proof.
  filter_cases level endpoint start_date end_date; reflexivity.
Qed.

(** X14 (get_logs, the request). Whatever the arguments, the parameters
    bound are exactly the placeholders of the query text, in the order of
    the text and each one once; the last one is [limit], bound to the
    argument. *)
Theorem get_logs_request_placeholders (limit : Z) (level endpoint : option string)
    (start_date end_date : option Z) :
  let request := get_logs_request limit level endpoint start_date end_date in
  placeholders (fst request) = Some (map fst (snd request)) /\
  NoDup (map fst (snd request)) /\
  last (snd request) ("limit"%string, ONone) = ("limit"%string, OInt limit).
Proof.
  filter_cases level endpoint start_date end_date;
    (split; [vm_compute; reflexivity|]);
    (split; [cbv; distinct_keys | reflexivity]).
Qed.

Lemma get_logs_query_by_filters (limit : Z) (level endpoint : option string)
    (start_date end_date : option Z) :
  fst (get_logs_request limit level endpoint start_date end_date)
  = fst (get_logs_request 0
           (if truthy (opt_str level) then Some "x"%string else None)
           (if truthy (opt_str endpoint) then Some "x"%string else None)
           (if truthy (opt_datetime start_date) then Some 0%Z else None)
           (if truthy (opt_datetime end_date) then Some 0%Z else None)).
Proof.
  filter_cases level endpoint start_date end_date; reflexivity.
Qed.

(** X15 (get_logs, the query text). The text of the query depends on the
    arguments only through which filters are in force: the values of
    [level], [endpoint], the dates and [limit] reach the driver as
    parameters and never as text of the query. *)
Theorem get_logs_query_text (limit limit' : Z) (level level' endpoint endpoint' : option string)
    (start_date start_date' end_date end_date' : option Z) :
  filters level endpoint start_date end_date
  = filters level' endpoint' start_date' end_date' ->
  fst (get_logs_request limit level endpoint start_date end_date)
  = fst (get_logs_request limit' level' endpoint' start_date' end_date').
Proof.
  unfold filters. intro H.
  apply pair_equal_spec in H as [H H4].
  apply pair_equal_spec in H as [H H3].
  apply pair_equal_spec in H as [H1 H2].
  rewrite (get_logs_query_by_filters limit level),
          (get_logs_query_by_filters limit' level').
  now rewrite H1, H2, H3, H4.
Qed.

Lemma get_logs_query_text_witness :
  filters (Some "ERROR"%string) None (Some 1762128000%Z) None
  = filters (Some "x' OR 1=1 --"%string) None (Some 0%Z) None /\
  fst (get_logs_request 100 (Some "ERROR"%string) None (Some 1762128000%Z) None)
  = fst (get_logs_request (-1) (Some "x' OR 1=1 --"%string) None (Some 0%Z) None).
Proof.
  assert (H : filters (Some "ERROR"%string) None (Some 1762128000%Z) None
              = filters (Some "x' OR 1=1 --"%string) None (Some 0%Z) None)
    by reflexivity.
  split; [exact H|].
  exact (get_logs_query_text 100 (-1) _ _ _ _ _ _ _ _ H).
Defined.

(** X16 (insert_log, the request). Whatever the record, the thirteen
    parameters prepared are exactly the placeholders of the statement, in
    the order of the text and each one once. *)
Theorem insert_log_request_placeholders (json_dumps : obj -> string)
    (log_data : list (string * obj)) :
  let request := insert_log_request json_dumps log_data in
  placeholders (fst request) = Some (map fst (snd request)) /\
  NoDup (map fst (snd request)) /\
  length (snd request) = 13.
Proof.
  split; [vm_compute; reflexivity|].
  split; [cbv [insert_log_request snd map fst]; distinct_keys | reflexivity].
Qed.

Section ClientFacts.

Context {Client LogRow : Type}.
Variable json_dumps : obj -> string.
Variable upper : string -> string.
Variable driver : call -> reply LogRow.

Lemma client_step_invariant (self : ClickHouseClient Client) (o : client_op Client) :
  (_connected self = true -> client self <> None) ->
  _connected (client_step driver self o) = true ->
  client (client_step driver self o) <> None.
Proof.
  destruct self as [[c|] [|]], o as [[c'|]|[|]]; cbn; intros H E;
    try discriminate; try (apply H; reflexivity).
Qed.

Lemma client_after_invariant (history : list (client_op Client)) :
  _connected (client_after driver history) = true ->
  client (client_after driver history) <> None.
Proof.
  unfold client_after.
  assert (G : forall self,
    (_connected self = true -> client self <> None) ->
    _connected (fold_left (client_step driver) history self) = true ->
    client (fold_left (client_step driver) history self) <> None).
  { induction history as [|o history IH]; intros self H; cbn [fold_left].
    - exact H.
    - apply IH. now apply client_step_invariant. }
  apply G. cbn. discriminate.
Qed.

(** X17 (the client, every reachable state). After any history of
    [connect] and [disconnect], whatever the driver did at each, a client
    marked connected has a driver client; so [execute] calls the driver
    exactly when [_connected] is set, and [insert_log] and [get_logs] make
    one call with their request when it is set and none otherwise. *)
Theorem client_reachable_states (history : list (client_op Client)) :
  let self := client_after driver history in
  (_connected self = true -> client self <> None) /\
  (forall q p, fst (execute driver self q p) = [] <-> _connected self = false) /\
  (forall log_data,
     insert_log json_dumps driver self log_data
     = if _connected self
       then [(fst (insert_log_request json_dumps log_data),
              Some (snd (insert_log_request json_dumps log_data)))]
       else []) /\
  (forall limit level endpoint start_date end_date,
     fst (get_logs driver self limit level endpoint start_date end_date)
     = if _connected self
       then [(fst (get_logs_request limit level endpoint start_date end_date),
              Some (snd (get_logs_request limit level endpoint start_date end_date)))]
       else []).
Proof.
  intro self. pose proof (client_after_invariant history) as I.
  fold self in I. clearbody self.
  destruct self as [[c|] [|]]; cbn [_connected client] in *;
    try (exfalso; now apply I).
  - split; [discriminate|]. split; [|split].
    + intros q p. unfold execute. cbn. destruct (driver _); split; discriminate.
    + intro log_data. unfold insert_log, execute. cbn.
      destruct (driver _); reflexivity.
    + intros limit level endpoint start_date end_date.
      unfold get_logs, execute. cbn [_connected client negb orb].
      destruct (get_logs_request limit level endpoint start_date end_date)
        as [q params] eqn:E.
      assert (T : truthy (opt_dict (Some params)) = true).
      { pose proof (get_logs_params_given
                      limit level endpoint start_date end_date) as L.
        now rewrite E in L. }
      rewrite T. cbn [fst snd]. destruct (driver _); reflexivity.
  - split; [discriminate|]. repeat split; reflexivity.
  - split; [discriminate|]. repeat split; reflexivity.
Qed.

(** X18 (log_db_operation with insert_log). A record built by
    [log_db_operation] has every key [insert_log] asks for: no default is
    used, and the record is passed on as it is, but for [params], always
    serialised. Its level is [ERROR] exactly when its status code is 500,
    which is exactly when [error] is a string that is not empty. *)
Theorem log_db_operation_request (operation table : string)
    (data : option (list (string * obj))) (error : option string) :
  let record := log_db_operation json_dumps upper operation table data error in
  snd (insert_log_request json_dumps record)
  = dict_set record "params"%string
      (OStr (json_dumps
               (ODict [("table", OStr table); ("operation", OStr operation)]%string))) /\
  (dict_get record "level"%string = Found (OStr "ERROR"%string)
   <-> truthy (opt_str error) = true) /\
  (dict_get record "status_code"%string = Found (OInt 500)
   <-> truthy (opt_str error) = true) /\
  dict_get record "error_message"%string = Found (opt_str error).
Proof.
  destruct error as [[|c s]|]; destruct data as [[|x l]|];
    cbn; repeat split; intros; try reflexivity; try discriminate.
Qed.

End ClientFacts.
